(** * nxp_simtemp: the simulated temperature sensor driver

    A shallow embedding of the kernel driver [nxp_simtemp.c] and the
    properties of its sampling engine, configuration surface and read
    protocol.

    The repository carries the driver in several revisions.  The module
    [Driver] embeds the revision held in [unnamed/part_001] (timer tick,
    generator modes, sysfs stores, blocking read with a function-static
    [last_alert_state]).  The module [DriverPoll] embeds the functions that
    a later revision of the same file (the C source that follows the shell
    script in [scripts/build.sh]) changes: range-checked stores, the
    per-file state, the read that commits it and the poll.  The module
    [Platform] embeds what the probe and the remove register with the
    kernel, the module [Cli] the two sysfs setters of the command-line tool
    ([unnamed/part_000]), and the module [ModeArray] the single byte stores
    with which [mode_store] fills [mode] outside [simtemp_lock]. *)

From Stdlib Require Import ZArith List String Ascii Bool Lia.
From stdpp Require Import base tactics option list strings gmap.

Local Open Scope string_scope.
Local Open Scope Z_scope.

(** ** Machine integers

    The driver's counters are [unsigned int], its readings are [int]; both
    are 32 bits wide.  Values are kept in [Z] and every C operation that can
    leave the range is followed by the wrap-around it has in the kernel
    (which is built with wrapping signed arithmetic). *)

Definition u32 (z : Z) : Z := z mod 2 ^ 32.
Definition s32 (z : Z) : Z := (z + 2 ^ 31) mod 2 ^ 32 - 2 ^ 31.
Definition u64 (z : Z) : Z := z mod 2 ^ 64.

(** Error numbers of <linux/errno.h> that the driver returns. *)
Definition ENOMEM : Z := 12.
Definition EFAULT : Z := 14.
Definition EINVAL : Z := 22.
Definition ERANGE : Z := 34.
Definition ERESTARTSYS : Z := 512.

(** Flag bits of a sample record. *)
Definition NEW_SAMPLE : Z := 1.
Definition THRESHOLD_CROSSED : Z := 2.

(** ** C strings

    A [char] buffer is a [string] of its bytes, NUL bytes included.  The C
    string it holds ends before its first NUL, which is what [strcmp],
    [strcpy] and the [kstrto*] parsers read. *)

Definition NUL : ascii := Ascii.zero.
Definition LF : ascii := "010"%char.

Fixpoint c_str (b : string) : string :=
  match b with
  | EmptyString => EmptyString
  | String c r => if Ascii.eqb c NUL then EmptyString else String c (c_str r)
  end.

(** [strcmp (a, b) == 0] *)
Definition strcmp_eq (a b : string) : bool := String.eqb (c_str a) (c_str b).

(** [memcpy (dst, src, n)] into an uninitialised array: its first [n] bytes. *)
Fixpoint memcpy (n : nat) (src : string) : string :=
  match n, src with
  | S n', String c r => String c (memcpy n' r)
  | _, _ => EmptyString
  end.

(** [b[k] = c] on a buffer that has a byte at index [k]. *)
Fixpoint store_char (k : nat) (c : ascii) (b : string) : string :=
  match b, k with
  | EmptyString, _ => EmptyString
  | String _ r, O => String c r
  | String x r, S k' => String x (store_char k' c r)
  end.

(** [b[k]] *)
Definition char_at (k : nat) (b : string) : option ascii := String.get k b.

(** A string in the sense of C: no NUL byte inside. *)
Fixpoint nul_free (s : string) : bool :=
  match s with
  | EmptyString => true
  | String c r => negb (Ascii.eqb c NUL) && nul_free r
  end.

(** ** The kernel's decimal parsers

    [kstrtoint] and [kstrtouint] belong to the kernel (lib/kstrtox.c), not
    to the driver.  They are embedded here for base 10, the only base the
    driver passes: an optional sign, at least one digit, an optional single
    newline, then the end of the string; [-ERANGE] when the digits overflow
    64 bits or the value does not fit the 32-bit result, [-EINVAL] on any
    other malformed text. *)

Definition digit_of (c : ascii) : option Z :=
  let n := Z.of_nat (nat_of_ascii c) in
  if (48 <=? n) && (n <=? 57) then Some (n - 48) else None.

(** [_parse_integer]: the value of the leading digits, how many there are,
    and the text after them. *)
Fixpoint _parse_integer (s : string) (res : Z) (rv : nat) : Z * nat * string :=
  match s with
  | String c r =>
      match digit_of c with
      | Some d => _parse_integer r (res * 10 + d) (S rv)
      | None => (res, rv, s)
      end
  | EmptyString => (res, rv, s)
  end.

Definition ULLONG_MAX : Z := 2 ^ 64 - 1.

(** [_kstrtoull (s, 10, &res)]: [inl] the parsed value, [inr] the error. *)
Definition _kstrtoull (s : string) : Z + Z :=
  let '(res, rv, rest) := _parse_integer (c_str s) 0 0 in
  if ULLONG_MAX <? res then inr (- ERANGE)
  else if Nat.eqb rv 0 then inr (- EINVAL)
  else
    let rest := match rest with
                | String c r => if Ascii.eqb c LF then r else rest
                | EmptyString => rest
                end in
    match rest with
    | EmptyString => inl res
    | String _ _ => inr (- EINVAL)
    end.

Definition kstrtoull (s : string) : Z + Z :=
  match c_str s with
  | String "+" r => _kstrtoull r
  | _ => _kstrtoull s
  end.

Definition kstrtoll (s : string) : Z + Z :=
  match c_str s with
  | String "-" r =>
      match _kstrtoull r with
      | inr e => inr e
      | inl tmp => if 2 ^ 63 <? tmp then inr (- ERANGE) else inl (- tmp)
      end
  | _ =>
      match kstrtoull s with
      | inr e => inr e
      | inl tmp => if 2 ^ 63 <=? tmp then inr (- ERANGE) else inl tmp
      end
  end.

Definition kstrtouint (s : string) : Z + Z :=
  match kstrtoull s with
  | inr e => inr e
  | inl tmp => if tmp =? u32 tmp then inl tmp else inr (- ERANGE)
  end.

Definition kstrtoint (s : string) : Z + Z :=
  match kstrtoll s with
  | inr e => inr e
  | inl tmp => if tmp =? s32 tmp then inl tmp else inr (- ERANGE)
  end.

(** ** Decimal output

    What [sprintf] prints for [%u] and [%d] (and the C++ stream inserters
    of the command-line tool for [unsigned int] and [int]): the decimal
    digits of the value, most significant first, without leading zeros,
    after a minus sign when the value is negative.  Like the parsers, the
    formatter belongs to the kernel (lib/vsprintf.c), not to the driver. *)

Definition digit_char (d : Z) : ascii := ascii_of_nat (Z.to_nat (48 + d)).

(** The digits of [n] put in front of [acc]; [fuel] bounds their number. *)
Fixpoint put_dec (fuel : nat) (n : Z) (acc : string) : string :=
  match fuel with
  | O => acc
  | S fuel' =>
      let acc := String (digit_char (n mod 10)) acc in
      if n / 10 =? 0 then acc else put_dec fuel' (n / 10) acc
  end.

(** [%u] on a value below 2^64 (at most 20 digits). *)
Definition fmt_u (n : Z) : string := put_dec 20 n EmptyString.

(** [%d] *)
Definition fmt_d (n : Z) : string :=
  if n <? 0 then String "-" (fmt_u (- n)) else fmt_u n.

(** ** Sample records on the wire

    [struct simtemp_sample] is packed: an 8-byte [timestamp_ns], a 4-byte
    [temp_mC] and a 4-byte [flags], laid out as the little-endian machines
    the driver is built for store them.  A byte is a [Z] in [0, 256). *)

Record simtemp_sample := mkSample {
  timestamp_ns : Z;   (* __u64 *)
  temp_mC : Z;        (* __s32 *)
  flags : Z           (* __u32 *)
}.

Fixpoint le_bytes (n : nat) (v : Z) : list Z :=
  match n with
  | O => []
  | S n' => v mod 256 :: le_bytes n' (v / 256)
  end.

Fixpoint le_value (bs : list Z) : Z :=
  match bs with
  | [] => 0
  | b :: r => b + 256 * le_value r
  end.

(** The bytes [copy_to_user] reads from [&sample]. *)
Definition sample_bytes (s : simtemp_sample) : list Z :=
  le_bytes 8 (timestamp_ns s) ++ le_bytes 4 (temp_mC s) ++ le_bytes 4 (flags s).

(** [sizeof (struct simtemp_sample)] *)
Definition sizeof_sample : nat := 8 + 4 + 4.

(** The fields of a record read back from the bytes a consumer received. *)
Definition record_timestamp (bs : list Z) : Z := le_value (take 8 bs).
Definition record_temp (bs : list Z) : Z := s32 (le_value (take 4 (drop 8 bs))).
Definition record_flags (bs : list Z) : Z := le_value (take 4 (drop 12 bs)).

Module Driver.

(** ** Driver state (revision of [unnamed/part_001])

    The file-scope variables of the driver and the two function-static
    variables ([direction] of [simtemp_mode_ramp], [last_alert_state] of
    [simtemp_read]). *)

Record state := mkState {
  sampling_ms : Z;          (* static unsigned int sampling_ms = 100 *)
  threshold_mC : Z;         (* static int threshold_mC = 45000 *)
  mode : string;            (* static char mode[16] = "normal" *)
  stats_updates : Z;        (* static unsigned int stats_updates = 0 *)
  stats_alerts : Z;         (* static unsigned int stats_alerts = 0 *)
  stats_last_error : Z;     (* static int stats_last_error = 0 *)
  simtemp_current_mC : Z;   (* static int simtemp_current_mC = 44000 *)
  simtemp_sample_seq : Z;   (* static unsigned int simtemp_sample_seq = 0 *)
  direction : Z;            (* static int direction = 1 *)
  last_alert_state : Z      (* static int last_alert_state = 0 *)
}.

Definition set_sampling_ms (v : Z) (st : state) : state :=
  mkState v (threshold_mC st) (mode st) (stats_updates st) (stats_alerts st)
    (stats_last_error st) (simtemp_current_mC st) (simtemp_sample_seq st)
    (direction st) (last_alert_state st).
Definition set_threshold_mC (v : Z) (st : state) : state :=
  mkState (sampling_ms st) v (mode st) (stats_updates st) (stats_alerts st)
    (stats_last_error st) (simtemp_current_mC st) (simtemp_sample_seq st)
    (direction st) (last_alert_state st).
Definition set_mode (v : string) (st : state) : state :=
  mkState (sampling_ms st) (threshold_mC st) v (stats_updates st) (stats_alerts st)
    (stats_last_error st) (simtemp_current_mC st) (simtemp_sample_seq st)
    (direction st) (last_alert_state st).
Definition set_stats_updates (v : Z) (st : state) : state :=
  mkState (sampling_ms st) (threshold_mC st) (mode st) v (stats_alerts st)
    (stats_last_error st) (simtemp_current_mC st) (simtemp_sample_seq st)
    (direction st) (last_alert_state st).
Definition set_stats_alerts (v : Z) (st : state) : state :=
  mkState (sampling_ms st) (threshold_mC st) (mode st) (stats_updates st) v
    (stats_last_error st) (simtemp_current_mC st) (simtemp_sample_seq st)
    (direction st) (last_alert_state st).
Definition set_stats_last_error (v : Z) (st : state) : state :=
  mkState (sampling_ms st) (threshold_mC st) (mode st) (stats_updates st)
    (stats_alerts st) v (simtemp_current_mC st) (simtemp_sample_seq st)
    (direction st) (last_alert_state st).
Definition set_simtemp_current_mC (v : Z) (st : state) : state :=
  mkState (sampling_ms st) (threshold_mC st) (mode st) (stats_updates st)
    (stats_alerts st) (stats_last_error st) v (simtemp_sample_seq st)
    (direction st) (last_alert_state st).
Definition set_simtemp_sample_seq (v : Z) (st : state) : state :=
  mkState (sampling_ms st) (threshold_mC st) (mode st) (stats_updates st)
    (stats_alerts st) (stats_last_error st) (simtemp_current_mC st) v
    (direction st) (last_alert_state st).
Definition set_direction (v : Z) (st : state) : state :=
  mkState (sampling_ms st) (threshold_mC st) (mode st) (stats_updates st)
    (stats_alerts st) (stats_last_error st) (simtemp_current_mC st)
    (simtemp_sample_seq st) v (last_alert_state st).
Definition set_last_alert_state (v : Z) (st : state) : state :=
  mkState (sampling_ms st) (threshold_mC st) (mode st) (stats_updates st)
    (stats_alerts st) (stats_last_error st) (simtemp_current_mC st)
    (simtemp_sample_seq st) (direction st) v.

(** The static initialisers. *)
Definition static_init : state :=
  mkState 100 45000 "normal" 0 0 0 44000 0 1 0.

(** [nxp_simtemp_probe]: of the engine state it only resets the sequence
    number (the rest of the function registers the device and arms the
    timer). *)
Definition nxp_simtemp_probe (st : state) : state :=
  set_simtemp_sample_seq 0 st.

(** The engine once the module is loaded and probed. *)
Definition init : state := nxp_simtemp_probe static_init.

(** ** Temperature generator *)

Definition simtemp_mode_normal (st : state) : state :=
  let st := set_simtemp_current_mC (s32 (simtemp_current_mC st + 10)) st in
  if 46000 <? simtemp_current_mC st
  then set_simtemp_current_mC 44000 st
  else st.

(** [rnd] is the value [get_random_u32 ()] returns.  The remainder and the
    subtraction are unsigned; the result is converted to [int]. *)
Definition simtemp_mode_noisy (rnd : Z) (st : state) : state :=
  let noise := s32 (u32 (u32 rnd mod 200 - 100)) in
  let st := set_simtemp_current_mC (s32 (simtemp_current_mC st + noise)) st in
  let st := if 46000 <? simtemp_current_mC st
            then set_simtemp_current_mC 46000 st else st in
  if simtemp_current_mC st <? 44000
  then set_simtemp_current_mC 44000 st
  else st.

Definition simtemp_mode_ramp (st : state) : state :=
  let st := set_simtemp_current_mC
              (s32 (simtemp_current_mC st + s32 (direction st * 50))) st in
  let st := if 46000 <=? simtemp_current_mC st
            then set_direction (-1) st else st in
  if simtemp_current_mC st <=? 44000
  then set_direction 1 st
  else st.

(** ** Timer tick

    The body that runs under [simtemp_lock].  Waking the wait queue and
    re-arming the timer with [sampling_ms] do not touch the state. *)
Definition simtemp_update_temp (rnd : Z) (st : state) : state :=
  let st :=
    if strcmp_eq (mode st) "noisy" then simtemp_mode_noisy rnd st
    else if strcmp_eq (mode st) "ramp" then simtemp_mode_ramp st
    else if strcmp_eq (mode st) "normal" then simtemp_mode_normal st
    else st in
  let st := set_stats_updates (u32 (stats_updates st + 1)) st in
  set_simtemp_sample_seq (u32 (simtemp_sample_seq st + 1)) st.

(** ** Sysfs stores

    [buf] holds the bytes written to the attribute, [count] is their number;
    sysfs puts a NUL after them.  A store returns the new state and its
    [ssize_t] result. *)

Definition sampling_ms_store (buf : string) (st : state) : state * Z :=
  let count := String.length buf in
  match kstrtouint buf with
  | inr _ => (set_stats_last_error (- EINVAL) st, - EINVAL)
  | inl val =>
      if val =? 0
      then (set_stats_last_error (- EINVAL) st, - EINVAL)
      else (set_sampling_ms val st, Z.of_nat count)
  end.

Definition threshold_mC_store (buf : string) (st : state) : state * Z :=
  let count := String.length buf in
  match kstrtoint buf with
  | inr _ => (set_stats_last_error (- EINVAL) st, - EINVAL)
  | inl val => (set_threshold_mC val st, Z.of_nat count)
  end.

Definition mode_store (buf : string) (st : state) : state * Z :=
  let count := String.length buf in
  let len := Nat.min count (16 - 1) in
  (* memcpy (tmp, buf, len); tmp[len] = '\0'; *)
  let tmp := memcpy len buf +:+ String NUL EmptyString in
  (* if (len > 0 && tmp[len-1] == '\n') tmp[len-1] = '\0'; *)
  let tmp :=
    if (0 <? len)%nat &&
       match char_at (len - 1) tmp with
       | Some c => Ascii.eqb c LF
       | None => false
       end
    then store_char (len - 1) NUL tmp
    else tmp in
  if negb (strcmp_eq tmp "normal") &&
     negb (strcmp_eq tmp "noisy") &&
     negb (strcmp_eq tmp "ramp")
  then (set_stats_last_error (- EINVAL) st, - EINVAL)
  else (set_mode (c_str tmp) st, Z.of_nat count).

(** ** What runs beside a blocked reader

    While a caller of [simtemp_read] sleeps, the timer ticks and other
    processes write the sysfs attributes; a signal may arrive. *)

Inductive env_op :=
| Tick (rnd : Z)
| StoreSampling (buf : string)
| StoreThreshold (buf : string)
| StoreMode (buf : string).

Inductive env_event :=
| Happens (o : env_op)
| Signal.

Definition run_env_op (o : env_op) (st : state) : state :=
  match o with
  | Tick rnd => simtemp_update_temp rnd st
  | StoreSampling buf => fst (sampling_ms_store buf st)
  | StoreThreshold buf => fst (threshold_mC_store buf st)
  | StoreMode buf => fst (mode_store buf st)
  end.

Definition run_env_ops (os : list env_op) (st : state) : state :=
  fold_left (fun st o => run_env_op o st) os st.

(** [wait_event_interruptible (simtemp_wq, cur_seq != prev_seq)]: the
    condition is tested first; if it is false a pending signal ends the wait
    with [-ERESTARTSYS], otherwise the caller sleeps until the next event.
    [Asleep] is a caller for whom the listed events were not enough. *)

Inductive wait_outcome :=
| Woken (st : state)
| Interrupted (st : state)
| Asleep (st : state).

Fixpoint wait_event_interruptible
    (prev_seq : Z) (evs : list env_event) (st : state) : wait_outcome :=
  if negb (simtemp_sample_seq st =? prev_seq) then Woken st
  else
    match evs with
    | [] => Asleep st
    | Signal :: _ => Interrupted st
    | Happens o :: evs' =>
        wait_event_interruptible prev_seq evs' (run_env_op o st)
    end.

(** ** Read protocol *)

(** The environment of one call: what happens while it sleeps, what happens
    between its wake-up and its taking [simtemp_lock], the clock value
    [ktime_get_ns ()] returns, and the number of bytes [copy_to_user] could
    not copy (0 when the copy succeeds). *)
Record read_env := mkEnv {
  wait_events : list env_event;
  late_ops : list env_op;
  ktime_ns : Z;
  not_copied : nat
}.

(** The second critical section of [simtemp_read] (the lines between
    [mutex_lock (&simtemp_lock)] and [mutex_unlock (&simtemp_lock)] after the
    wait): it fills the sample and does the edge accounting. *)
Definition read_locked (now : Z) (st : state) : simtemp_sample * state :=
  let sample := mkSample (u64 now) (simtemp_current_mC st) NEW_SAMPLE in
  let alert := if threshold_mC st <=? simtemp_current_mC st then 1 else 0 in
  let sample :=
    if negb (alert =? 0)
    then mkSample (timestamp_ns sample) (temp_mC sample)
           (Z.lor (flags sample) THRESHOLD_CROSSED)
    else sample in
  (* if (alert != last_alert_state) { stats_alerts++; last_alert_state = alert; } *)
  let st :=
    if negb (alert =? last_alert_state st)
    then set_last_alert_state alert
           (set_stats_alerts (u32 (stats_alerts st + 1)) st)
    else st in
  (sample, st).

(** The result of a call: it returned [ret] leaving [user] in the
    consumer's buffer, or it is still asleep. *)
Inductive read_result :=
| Returned (st : state) (ret : Z) (user : list Z)
| Sleeping (st : state).

(** [file] is the open file the call is made on; the function of this
    revision never looks at it. *)
Definition simtemp_read
    (file : nat) (count : nat) (env : read_env) (st : state) : read_result :=
  let prev_seq := simtemp_sample_seq st in
  match wait_event_interruptible prev_seq (wait_events env) st with
  | Asleep st => Sleeping st
  | Interrupted st =>
      Returned (set_stats_last_error (- ERESTARTSYS) st) (- ERESTARTSYS) []
  | Woken st =>
      let st := run_env_ops (late_ops env) st in
      let '(sample, st) := read_locked (ktime_ns env) st in
      if (count <? sizeof_sample)%nat
      then Returned (set_stats_last_error (- EINVAL) st) (- EINVAL) []
      else if negb (not_copied env =? 0)%nat
      then Returned (set_stats_last_error (- EFAULT) st) (- EFAULT)
             (take (sizeof_sample - not_copied env) (sample_bytes sample))
      else Returned st (Z.of_nat sizeof_sample) (sample_bytes sample)
  end.

(** ** Runs of the driver

    The operations user space and the timer perform on a probed driver. *)

Inductive op :=
| Env (o : env_op)
| Read (file : nat) (count : nat) (env : read_env).

Definition state_after (r : read_result) : state :=
  match r with
  | Returned st _ _ => st
  | Sleeping st => st
  end.

(** What a call returned, and what it left in the consumer's buffer. *)
Definition return_value (r : read_result) : option Z :=
  match r with
  | Returned _ ret _ => Some ret
  | Sleeping _ => None
  end.

Definition user_buffer (r : read_result) : list Z :=
  match r with
  | Returned _ _ user => user
  | Sleeping _ => []
  end.

Definition run_op (o : op) (st : state) : state :=
  match o with
  | Env e => run_env_op e st
  | Read file count env => state_after (simtemp_read file count env st)
  end.

(** Each operation runs to its end before the next one starts.  The
    driver guarantees that for what it does under [simtemp_lock] and for
    its single-word variables; the copy into [mode] is made outside the
    lock, and [ModeArray] has it byte by byte. *)
Definition run (ops : list op) (st : state) : state :=
  fold_left (fun st o => run_op o st) ops st.

(** One tick for each of the random values [rnds], in order. *)
Definition ticks (rnds : list Z) (st : state) : state :=
  fold_left (fun st rnd => simtemp_update_temp rnd st) rnds st.

(** ** Sysfs shows

    A show function fills [buf] with [sprintf] and returns the number of
    bytes it wrote; the text is what is modelled, the result is its
    length. *)

Definition sampling_ms_show (st : state) : string :=
  fmt_u (sampling_ms st) +:+ String LF EmptyString.

Definition threshold_mC_show (st : state) : string :=
  fmt_d (threshold_mC st) +:+ String LF EmptyString.

Definition mode_show (st : state) : string :=
  c_str (mode st) +:+ String LF EmptyString.

Definition stats_show (st : state) : string :=
  "updates=" +:+ fmt_u (stats_updates st) +:+ String LF
    ("alerts=" +:+ fmt_u (stats_alerts st) +:+ String LF
       ("last_error=" +:+ fmt_d (stats_last_error st) +:+ String LF EmptyString)).

End Driver.

Module DriverPoll.

(** ** The later revision of the driver

    The engine variables, the generator modes, the timer tick and the probe
    are the same text as in [Driver] and are taken from there; that revision
    has no function-static [last_alert_state] (the field of [Driver.state]
    is unused below) and keeps a [struct simtemp_file_state] per open file
    in [file->private_data] instead. *)

Definition SIMTEMP_SAMPLING_MS_MIN : Z := 1.
Definition SIMTEMP_SAMPLING_MS_MAX : Z := 10000.
Definition SIMTEMP_THRESHOLD_MC_MIN : Z := -20000.
Definition SIMTEMP_THRESHOLD_MC_MAX : Z := 60000.

Record simtemp_file_state := mkFile {
  last_seq : Z;           (* unsigned int *)
  last_alert_state : Z    (* int *)
}.

(** The engine and the [private_data] of the open files; a file without an
    entry has [private_data == NULL]. *)
Record system := mkSystem {
  engine : Driver.state;
  private_data : gmap nat simtemp_file_state
}.

Definition init : system := mkSystem Driver.init ∅.

Definition sampling_ms_store (buf : string) (st : Driver.state) : Driver.state * Z :=
  let count := String.length buf in
  match kstrtouint buf with
  | inr _ => (Driver.set_stats_last_error (- EINVAL) st, - EINVAL)
  | inl val =>
      if (val <? SIMTEMP_SAMPLING_MS_MIN) || (SIMTEMP_SAMPLING_MS_MAX <? val)
      then (Driver.set_stats_last_error (- EINVAL) st, - EINVAL)
      else (Driver.set_sampling_ms val st, Z.of_nat count)
  end.

Definition threshold_mC_store (buf : string) (st : Driver.state) : Driver.state * Z :=
  let count := String.length buf in
  match kstrtoint buf with
  | inr _ => (Driver.set_stats_last_error (- EINVAL) st, - EINVAL)
  | inl val =>
      if (val <? SIMTEMP_THRESHOLD_MC_MIN) || (SIMTEMP_THRESHOLD_MC_MAX <? val)
      then (Driver.set_stats_last_error (- EINVAL) st, - EINVAL)
      else (Driver.set_threshold_mC val st, Z.of_nat count)
  end.

(** [strncpy (dst, src, n)]: the bytes of the C string in [src], at most
    [n], padded with NUL up to [n]. *)
Fixpoint strncpy (n : nat) (src : string) : string :=
  match n with
  | O => EmptyString
  | S n' =>
      match src with
      | String c r =>
          if Ascii.eqb c NUL then String NUL (strncpy n' EmptyString)
          else String c (strncpy n' r)
      | EmptyString => String NUL (strncpy n' EmptyString)
      end
  end.

(** [strchr (s, c)]: the index of the first [c] in the C string [s]. *)
Fixpoint strchr (c : ascii) (s : string) : option nat :=
  match s with
  | EmptyString => None
  | String x r =>
      if Ascii.eqb x NUL then None
      else if Ascii.eqb x c then Some O
      else option_map S (strchr c r)
  end.

Definition mode_store (buf : string) (st : Driver.state) : Driver.state * Z :=
  let count := String.length buf in
  let len := Nat.min count (16 - 1) in
  let mode_buf := strncpy len buf +:+ String NUL EmptyString in
  let mode_buf :=
    match strchr LF mode_buf with
    | Some k => store_char k NUL mode_buf
    | None => mode_buf
    end in
  if negb (strcmp_eq mode_buf "normal") &&
     negb (strcmp_eq mode_buf "noisy") &&
     negb (strcmp_eq mode_buf "ramp")
  then (Driver.set_stats_last_error (- EINVAL) st, - EINVAL)
  else (Driver.set_mode (c_str (strncpy (16 - 1) mode_buf)) st, Z.of_nat count).

Definition run_env_op (o : Driver.env_op) (st : Driver.state) : Driver.state :=
  match o with
  | Driver.Tick rnd => Driver.simtemp_update_temp rnd st
  | Driver.StoreSampling buf => fst (sampling_ms_store buf st)
  | Driver.StoreThreshold buf => fst (threshold_mC_store buf st)
  | Driver.StoreMode buf => fst (mode_store buf st)
  end.

Definition run_env_ops (os : list Driver.env_op) (st : Driver.state) : Driver.state :=
  fold_left (fun st o => run_env_op o st) os st.

Fixpoint wait_event_interruptible
    (prev_seq : Z) (evs : list Driver.env_event) (st : Driver.state)
    : Driver.wait_outcome :=
  if negb (Driver.simtemp_sample_seq st =? prev_seq) then Driver.Woken st
  else
    match evs with
    | [] => Driver.Asleep st
    | Driver.Signal :: _ => Driver.Interrupted st
    | Driver.Happens o :: evs' =>
        wait_event_interruptible prev_seq evs' (run_env_op o st)
    end.

(** [(simtemp_current_mC >= threshold_mC) ? 1 : 0] *)
Definition polarity (st : Driver.state) : Z :=
  if Driver.threshold_mC st <=? Driver.simtemp_current_mC st then 1 else 0.

(** [simtemp_get_file_state]; [alloc_ok] tells whether [kzalloc] succeeds
    when the file has no state yet. *)
Definition simtemp_get_file_state
    (alloc_ok : bool) (file : nat) (sys : system)
    : option simtemp_file_state * system :=
  match private_data sys !! file with
  | Some fs => (Some fs, sys)
  | None =>
      if alloc_ok then
        let fs := mkFile (Driver.simtemp_sample_seq (engine sys))
                         (polarity (engine sys)) in
        (Some fs, mkSystem (engine sys) (<[file := fs]> (private_data sys)))
      else (None, sys)
  end.

Definition simtemp_update_file_state
    (alloc_ok : bool) (file : nat) (seq alert : Z) (sys : system) : system :=
  match simtemp_get_file_state alloc_ok file sys with
  | (Some _, sys) =>
      mkSystem (engine sys) (<[file := mkFile seq alert]> (private_data sys))
  | (None, sys) => sys
  end.

Definition simtemp_release (file : nat) (sys : system) : system :=
  mkSystem (engine sys) (delete file (private_data sys)).

Definition POLLIN : Z := 1.
Definition POLLPRI : Z := 2.
Definition POLLERR : Z := 8.
Definition POLLRDNORM : Z := 64.

Definition simtemp_poll (alloc_ok : bool) (file : nat) (sys : system) : Z * system :=
  match simtemp_get_file_state alloc_ok file sys with
  | (None, sys) => (POLLERR, sys)
  | (Some fs, sys) =>
      let cur_seq := Driver.simtemp_sample_seq (engine sys) in
      let alert := polarity (engine sys) in
      let mask := 0 in
      let mask := if negb (cur_seq =? last_seq fs)
                  then Z.lor mask (Z.lor POLLIN POLLRDNORM) else mask in
      let mask := if negb (alert =? last_alert_state fs)
                  then Z.lor mask POLLPRI else mask in
      (mask, sys)
  end.

Inductive read_result :=
| Returned (sys : system) (ret : Z) (user : list Z)
| Sleeping (sys : system).

Definition simtemp_read
    (alloc_ok : bool) (file : nat) (count : nat) (env : Driver.read_env)
    (sys : system) : read_result :=
  match simtemp_get_file_state alloc_ok file sys with
  | (None, sys) => Returned sys (- ENOMEM) []
  | (Some _, sys) =>
      let files := private_data sys in
      let prev_seq := Driver.simtemp_sample_seq (engine sys) in
      let last_alert_state := polarity (engine sys) in
      match wait_event_interruptible prev_seq (Driver.wait_events env) (engine sys) with
      | Driver.Asleep st => Sleeping (mkSystem st files)
      | Driver.Interrupted st =>
          Returned (mkSystem (Driver.set_stats_last_error (- ERESTARTSYS) st) files)
                   (- ERESTARTSYS) []
      | Driver.Woken st =>
          let st := run_env_ops (Driver.late_ops env) st in
          let alert := polarity st in
          let sample :=
            mkSample (u64 (Driver.ktime_ns env)) (Driver.simtemp_current_mC st)
              (if negb (alert =? 0) then Z.lor NEW_SAMPLE THRESHOLD_CROSSED
               else NEW_SAMPLE) in
          let st :=
            if negb (alert =? last_alert_state)
            then Driver.set_stats_alerts (u32 (Driver.stats_alerts st + 1)) st
            else st in
          if (count <? sizeof_sample)%nat
          then Returned (mkSystem (Driver.set_stats_last_error (- EINVAL) st) files)
                        (- EINVAL) []
          else if negb (Driver.not_copied env =? 0)%nat
          then Returned (mkSystem (Driver.set_stats_last_error (- EFAULT) st) files)
                        (- EFAULT)
                        (take (sizeof_sample - Driver.not_copied env) (sample_bytes sample))
          else Returned
                 (simtemp_update_file_state alloc_ok file (u32 (prev_seq + 1)) alert
                    (mkSystem st files))
                 (Z.of_nat sizeof_sample) (sample_bytes sample)
      end
  end.

Definition state_after (r : read_result) : system :=
  match r with
  | Returned sys _ _ => sys
  | Sleeping sys => sys
  end.

Definition return_value (r : read_result) : option Z :=
  match r with
  | Returned _ ret _ => Some ret
  | Sleeping _ => None
  end.

Definition user_buffer (r : read_result) : list Z :=
  match r with
  | Returned _ _ user => user
  | Sleeping _ => []
  end.

(** ** Runs of the later revision

    What user space and the timer do to the driver and its open files:
    the operations of the environment, [read], [poll] and [close] on a
    file. *)

Inductive op :=
| Env (o : Driver.env_op)
| Read (alloc_ok : bool) (file : nat) (count : nat) (env : Driver.read_env)
| Poll (alloc_ok : bool) (file : nat)
| Release (file : nat).

Definition run_op (o : op) (sys : system) : system :=
  match o with
  | Env e => mkSystem (run_env_op e (engine sys)) (private_data sys)
  | Read alloc_ok file count env =>
      state_after (simtemp_read alloc_ok file count env sys)
  | Poll alloc_ok file => snd (simtemp_poll alloc_ok file sys)
  | Release file => simtemp_release file sys
  end.

(** Each operation runs to its end before the next one starts, as in
    [Driver.run]. *)
Definition run (ops : list op) (sys : system) : system :=
  fold_left (fun sys o => run_op o sys) ops sys.

End DriverPoll.

Module Cli.

(** ** The setters of the command-line tool

    [sysfs::set_sampling_period_ms] and [sysfs::set_threshold_mC] of the
    tool ([unnamed/part_000]) open the attribute, insert the number and
    [std::endl] into the stream, and return [f.good ()]: whether the write
    of the decimal text and its newline was accepted by the store function
    of the driver that is loaded, which is the first argument here.  The
    attribute file is taken to exist. *)

Definition set_sampling_period_ms
    (sampling_ms_store : string -> Driver.state -> Driver.state * Z)
    (set_ms : Z) (st : Driver.state) : Driver.state * bool :=
  let '(st, ret) := sampling_ms_store (fmt_u set_ms +:+ String LF EmptyString) st in
  (st, 0 <=? ret).

Definition set_threshold_mC
    (threshold_mC_store : string -> Driver.state -> Driver.state * Z)
    (th_val : Z) (st : Driver.state) : Driver.state * bool :=
  let '(st, ret) := threshold_mC_store (fmt_d th_val +:+ String LF EmptyString) st in
  (st, 0 <=? ret).

End Cli.

Module Platform.

(** ** Probe and remove

    What [nxp_simtemp_probe] and [nxp_simtemp_remove] register with the
    kernel and release again (the probe's one write to the engine,
    [simtemp_sample_seq = 0], is [Driver.nxp_simtemp_probe]).  The kernel
    side is a registry of what exists: the armed timer, the device number,
    the class, the device, the character device and the attribute files.
    The driver side is its two pointers, [simtemp_class] and
    [simtemp_device], which keep whatever was last assigned to them. *)

Inductive ptr :=
| Null
| Obj
| Err (e : Z).

Definition IS_ERR (p : ptr) : bool :=
  match p with
  | Err _ => true
  | _ => false
  end.

(** [PTR_ERR] is only applied to a pointer for which [IS_ERR] holds. *)
Definition PTR_ERR (p : ptr) : Z :=
  match p with
  | Err e => e
  | _ => 0
  end.

Definition non_null (p : ptr) : bool :=
  match p with
  | Null => false
  | _ => true
  end.

Record kernel := mkKernel {
  timer_pending : bool;       (* simtemp_timer is armed *)
  chrdev_region : bool;       (* simtemp_dev_num is allocated *)
  class_exists : bool;
  device_exists : bool;
  cdev_added : bool;
  sysfs_files : list string;  (* the attribute files of the device *)
  simtemp_class : ptr;
  simtemp_device : ptr
}.

Definition set_timer_pending (v : bool) (k : kernel) : kernel :=
  mkKernel v (chrdev_region k) (class_exists k) (device_exists k) (cdev_added k)
    (sysfs_files k) (simtemp_class k) (simtemp_device k).
Definition set_chrdev_region (v : bool) (k : kernel) : kernel :=
  mkKernel (timer_pending k) v (class_exists k) (device_exists k) (cdev_added k)
    (sysfs_files k) (simtemp_class k) (simtemp_device k).
Definition set_class_exists (v : bool) (k : kernel) : kernel :=
  mkKernel (timer_pending k) (chrdev_region k) v (device_exists k) (cdev_added k)
    (sysfs_files k) (simtemp_class k) (simtemp_device k).
Definition set_device_exists (v : bool) (k : kernel) : kernel :=
  mkKernel (timer_pending k) (chrdev_region k) (class_exists k) v (cdev_added k)
    (sysfs_files k) (simtemp_class k) (simtemp_device k).
Definition set_cdev_added (v : bool) (k : kernel) : kernel :=
  mkKernel (timer_pending k) (chrdev_region k) (class_exists k) (device_exists k) v
    (sysfs_files k) (simtemp_class k) (simtemp_device k).
Definition set_sysfs_files (v : list string) (k : kernel) : kernel :=
  mkKernel (timer_pending k) (chrdev_region k) (class_exists k) (device_exists k)
    (cdev_added k) v (simtemp_class k) (simtemp_device k).
Definition set_simtemp_class (v : ptr) (k : kernel) : kernel :=
  mkKernel (timer_pending k) (chrdev_region k) (class_exists k) (device_exists k)
    (cdev_added k) (sysfs_files k) v (simtemp_device k).
Definition set_simtemp_device (v : ptr) (k : kernel) : kernel :=
  mkKernel (timer_pending k) (chrdev_region k) (class_exists k) (device_exists k)
    (cdev_added k) (sysfs_files k) (simtemp_class k) v.

(** Before the module is loaded: nothing registered, both pointers NULL. *)
Definition unloaded : kernel :=
  mkKernel false false false false false [] Null Null.

(** What [class_create] and [device_create] return: an object or
    [ERR_PTR (e)], never NULL. *)
Inductive created :=
| Object
| Error (e : Z).

Definition pointer (r : created) : ptr :=
  match r with
  | Object => Obj
  | Error e => Err e
  end.

(** What the calls of the probe that can fail return. *)
Record probe_env := mkProbeEnv {
  alloc_chrdev_region : Z;
  class_create : created;
  device_create : created;
  cdev_add : Z;
  device_create_file : string -> Z
}.

(** [ret = device_create_file (simtemp_device, &dev_attr_<a>)]; a failure
    is only logged. *)
Definition create_file (env : probe_env) (a : string) (k : kernel) : kernel :=
  if device_create_file env a =? 0
  then set_sysfs_files (a :: sysfs_files k) k
  else k.

(** [device_remove_file (simtemp_device, &dev_attr_<a>)] *)
Definition remove_file (a : string) (k : kernel) : kernel :=
  set_sysfs_files (List.filter (fun x => negb (String.eqb x a)) (sysfs_files k)) k.

Definition nxp_simtemp_probe (env : probe_env) (k : kernel) : kernel * Z :=
  (* timer_setup (...); mod_timer (...); *)
  let k := set_timer_pending true k in
  let ret := alloc_chrdev_region env in
  if ret <? 0 then (k, ret)
  else
    let k := set_chrdev_region true k in
    let k := set_simtemp_class (pointer (class_create env))
               (set_class_exists (negb (IS_ERR (pointer (class_create env)))) k) in
    if IS_ERR (simtemp_class k)
    then (set_chrdev_region false k, PTR_ERR (simtemp_class k))
    else
      let k := set_simtemp_device (pointer (device_create env))
                 (set_device_exists (negb (IS_ERR (pointer (device_create env)))) k) in
      if IS_ERR (simtemp_device k)
      then (set_chrdev_region false (set_class_exists false k),
            PTR_ERR (simtemp_device k))
      else
        let ret := cdev_add env in
        if ret <? 0
        then (set_chrdev_region false
                (set_class_exists false (set_device_exists false k)), ret)
        else
          let k := set_cdev_added true k in
          let k := create_file env "sampling_ms" k in
          let k := create_file env "threshold_mC" k in
          let k := create_file env "mode" k in
          let k := create_file env "stats" k in
          (k, 0).

Definition nxp_simtemp_remove (k : kernel) : kernel :=
  (* del_timer_sync (&simtemp_timer); *)
  let k := set_timer_pending false k in
  let k :=
    if non_null (simtemp_device k)
    then remove_file "stats"
           (remove_file "mode"
              (remove_file "threshold_mC" (remove_file "sampling_ms" k)))
    else k in
  let k := set_cdev_added false k in
  let k := if non_null (simtemp_device k) then set_device_exists false k else k in
  let k := if non_null (simtemp_class k) then set_class_exists false k else k in
  set_chrdev_region false k.

End Platform.

Module ModeArray.

(** ** The mode array, byte by byte

    [mode_store] of [unnamed/part_001] ends with [strcpy (mode, tmp)] and
    never takes [simtemp_lock], the lock under which the tick compares
    [mode] with the three tokens.  [strcpy] (lib/string.c) stores one byte
    after another, from index 0 up, the terminator last.  Here [mode] is
    its 16 bytes and a copy is its byte stores, so that whatever runs
    between two of them finds the array as it is at that moment. *)







End ModeArray.

(** * Vocabulary of the properties *)

Section Vocabulary.
Import Driver.

(** The values of an [int] and of an [unsigned int]. *)
Definition int_range (z : Z) : Prop := - 2 ^ 31 <= z < 2 ^ 31.
Definition uint_range (z : Z) : Prop := 0 <= z < 2 ^ 32.

(** The mode tokens the tick recognises. *)
Definition recognised (m : string) : bool :=
  strcmp_eq m "noisy" || strcmp_eq m "ramp" || strcmp_eq m "normal".

(** One increment of an [unsigned int] counter. *)
Definition bump (x : Z) : Z := u32 (x + 1).

(** What [echo s > attribute] writes. *)
Definition line (s : string) : string := s +:+ String LF EmptyString.

(** The probed driver once the mode [m] has been written to it. *)
Definition start_in (m : string) : state := fst (mode_store m init).

(** What holds of the reading while the driver stays in one mode. *)
Definition normal_inv (st : state) : Prop :=
  mode st = "normal" /\ 44000 <= simtemp_current_mC st <= 46000.

Definition noisy_inv (st : state) : Prop :=
  mode st = "noisy" /\ 44000 <= simtemp_current_mC st <= 46000.

Definition ramp_inv (st : state) : Prop :=
  mode st = "ramp" /\
  44000 <= simtemp_current_mC st <= 46000 /\
  (exists k, simtemp_current_mC st = 44000 + 50 * k) /\
  (direction st = 1 \/ direction st = -1) /\
  (simtemp_current_mC st = 44000 -> direction st = 1) /\
  (simtemp_current_mC st = 46000 -> direction st = -1).

(** A property of the state that no sysfs store can break. *)
Definition store_stable (P : state -> Prop) : Prop :=
  forall st, P st ->
    (forall v, P (set_sampling_ms v st)) /\
    (forall v, P (set_threshold_mC v st)) /\
    (forall m, P (set_mode m st)) /\
    (forall e, P (set_stats_last_error e st)).

(** A property of the state that the read's own writes cannot break. *)
Definition read_stable (P : state -> Prop) : Prop :=
  forall st, P st ->
    (forall a n, P (set_last_alert_state a (set_stats_alerts n st))) /\
    (forall e, P (set_stats_last_error e st)).

(** The state a wait ends in. *)
Definition outcome_state (w : wait_outcome) : state :=
  match w with
  | Woken st => st
  | Interrupted st => st
  | Asleep st => st
  end.

Definition counters_agree (st : state) : Prop :=
  stats_updates st = simtemp_sample_seq st.

(** [st] has both counters of [st0] advanced by the same number of
    increments. *)
Definition advanced_together (st0 st : state) : Prop :=
  exists n : nat,
    stats_updates st = Nat.iter n bump (stats_updates st0) /\
    simtemp_sample_seq st = Nat.iter n bump (simtemp_sample_seq st0).

Definition reading_in_range (st : state) : Prop :=
  int_range (simtemp_current_mC st).

(** [stm] is the state a woken call takes [simtemp_lock] in to fill its
    sample: the state it woke up in, after what ran before it got the
    lock. *)
Definition materialised_from (env : read_env) (st stm : state) : Prop :=
  exists stw,
    wait_event_interruptible (simtemp_sample_seq st) (wait_events env) st
      = Woken stw /\
    stm = run_env_ops (late_ops env) stw.

(** The sample built under the lock from the state [stm]. *)
Definition sample_of (now : Z) (stm : state) : simtemp_sample :=
  mkSample (u64 now) (simtemp_current_mC stm)
    (if threshold_mC stm <=? simtemp_current_mC stm then 3 else 1).

(** One tick while the caller waits, clock 0, a copy that succeeds. *)
Definition one_tick : read_env := mkEnv [Happens (Tick 0)] [] 0 0.

(** The reading of the specification that an interrupted read is not an
    error to record: a call that returns [-ERESTARTSYS] keeps
    [stats_last_error] as it was when the call was made. *)
Definition interrupted_read_keeps_last_error : Prop :=
  forall file count env st st' user,
    simtemp_read file count env st = Returned st' (- ERESTARTSYS) user ->
    stats_last_error st' = stats_last_error st.

(** The specification of the mode setter: the text with one trailing
    newline, if there is one, taken off ... *)
Fixpoint strip_newline (s : string) : string :=
  match s with
  | EmptyString => EmptyString
  | String c EmptyString => if Ascii.eqb c LF then EmptyString else s
  | String c r => String c (strip_newline r)
  end.

(** ... is one of the three mode tokens, compared byte for byte. *)
Definition valid_mode (m : string) : bool :=
  String.eqb m "normal" || String.eqb m "noisy" || String.eqb m "ramp".

(** The C string left in [tmp] once the newline test of [mode_store] has
    run on the bytes [p] it copied. *)
Definition tmp_token (p : string) : string :=
  let len := String.length p in
  let tmp := p +:+ String NUL EmptyString in
  c_str (if (0 <? len)%nat &&
            match char_at (len - 1) tmp with
            | Some c => Ascii.eqb c LF
            | None => false
            end
         then store_char (len - 1) NUL tmp
         else tmp).

(** The reading of the specification in which the mode setter judges
    every sequence of bytes written to it, NUL bytes included, by that
    text with one trailing newline taken off. *)
Definition mode_setter_judges_every_byte : Prop :=
  forall s st,
    (valid_mode (strip_newline s) = true ->
     mode_store s st = (set_mode (strip_newline s) st, Z.of_nat (String.length s))) /\
    (valid_mode (strip_newline s) = false ->
     mode_store s st = (set_stats_last_error (- EINVAL) st, - EINVAL)).


End Vocabulary.

Section DecimalVocabulary.

(** A text made of decimal digits only, and the number it denotes when it
    continues the number [acc]. *)
Fixpoint all_digits (s : string) : bool :=
  match s with
  | EmptyString => true
  | String c r =>
      match digit_of c with
      | Some _ => all_digits r
      | None => false
      end
  end.

Fixpoint digits_value (s : string) (acc : Z) : Z :=
  match s with
  | EmptyString => acc
  | String c r =>
      match digit_of c with
      | Some d => digits_value r (acc * 10 + d)
      | None => acc
      end
  end.

End DecimalVocabulary.

Section InvariantVocabulary.
Import Driver.

(** The values [stats_last_error] can hold. *)
Definition last_error_value (e : Z) : Prop :=
  e = 0 \/ e = - EINVAL \/ e = - EFAULT \/ e = - ERESTARTSYS.

(** What every operation of the driver keeps true of its variables. *)
Definition well_formed (st : state) : Prop :=
  1 <= sampling_ms st < 2 ^ 32 /\
  int_range (threshold_mC st) /\
  valid_mode (mode st) = true /\
  uint_range (stats_updates st) /\
  uint_range (stats_alerts st) /\
  last_error_value (stats_last_error st) /\
  43950 <= simtemp_current_mC st <= 46050 /\
  uint_range (simtemp_sample_seq st) /\
  (direction st = 1 \/ direction st = -1) /\
  (46000 < simtemp_current_mC st -> direction st = -1) /\
  (simtemp_current_mC st < 44000 -> direction st = 1) /\
  (last_alert_state st = 0 \/ last_alert_state st = 1).

End InvariantVocabulary.

(** Unfolds the invariant and leaves its arithmetic to [lia]. *)
Ltac wf_solve :=
  unfold well_formed, uint_range, int_range, last_error_value in *;
  simpl; repeat split; auto; try lia.

Section ReadVocabulary.
Import Driver.

(** Two runs that take the reading to the ends of its range. *)
Definition run_to_46050 : list op :=
  repeat (Env (Tick 0)) 200 ++ [Env (StoreMode (line "ramp")); Env (Tick 0)].

Definition run_to_43950 : list op :=
  Env (StoreMode (line "ramp")) :: repeat (Env (Tick 0)) 40 ++
  [Env (StoreMode (line "normal")); Env (Tick 0);
   Env (StoreMode (line "ramp")); Env (Tick 0)].

(** The events in which the timer fires. *)
Definition is_tick (o : env_op) : bool :=
  match o with
  | Tick _ => true
  | _ => false
  end.


(** [(simtemp_current_mC >= threshold_mC) ? 1 : 0] *)
Definition polarity (st : state) : Z :=
  if threshold_mC st <=? simtemp_current_mC st then 1 else 0.

(** What a tick and a read can change besides the configuration: two
    states agree on it when no tick and no read came between them. *)
Definition same_engine (st st' : state) : Prop :=
  stats_updates st' = stats_updates st /\
  stats_alerts st' = stats_alerts st /\
  simtemp_current_mC st' = simtemp_current_mC st /\
  simtemp_sample_seq st' = simtemp_sample_seq st /\
  direction st' = direction st /\
  last_alert_state st' = last_alert_state st.

End ReadVocabulary.

Section LaterVocabulary.

(** The bytes of a buffer before its first newline or NUL. *)
Fixpoint first_line (s : string) : string :=
  match s with
  | EmptyString => EmptyString
  | String c r =>
      if Ascii.eqb c NUL || Ascii.eqb c LF then EmptyString
      else String c (first_line r)
  end.

(** What the later revision keeps true of its engine: the invariant of
    the earlier one and the two configured ranges. *)
Definition later_inv (st : Driver.state) : Prop :=
  well_formed st /\
  Driver.sampling_ms st <= 10000 /\
  -20000 <= Driver.threshold_mC st <= 60000.

End LaterVocabulary.

Section AlertVocabulary.
Import Driver.

(** The number of calls to [simtemp_read] in a run. *)
Fixpoint reads (ops : list op) : nat :=
  match ops with
  | [] => 0
  | Read _ _ _ :: ops' => S (reads ops')
  | Env _ :: ops' => reads ops'
  end.

End AlertVocabulary.

Section PlatformVocabulary.
Import Platform.

(** Each of the four calls the probe gives up on succeeds. *)
Definition probe_calls_succeed (env : probe_env) : bool :=
  negb (alloc_chrdev_region env <? 0) &&
  negb (IS_ERR (pointer (class_create env))) &&
  negb (IS_ERR (pointer (device_create env))) &&
  negb (cdev_add env <? 0).

(** The first error among those calls. *)
Definition first_error (env : probe_env) : Z :=
  if alloc_chrdev_region env <? 0 then alloc_chrdev_region env
  else if IS_ERR (pointer (class_create env)) then PTR_ERR (pointer (class_create env))
  else if IS_ERR (pointer (device_create env)) then PTR_ERR (pointer (device_create env))
  else cdev_add env.

(** Nothing of the device is registered. *)
Definition nothing_registered (k : kernel) : Prop :=
  chrdev_region k = false /\ class_exists k = false /\ device_exists k = false /\
  cdev_added k = false /\ sysfs_files k = [].

End PlatformVocabulary.

(** Case analysis on every test a goal branches on. *)
Ltac case_tests :=
  repeat match goal with
         | |- context [if ?b then _ else _] => destruct b eqn:?; simpl
         end.

(** * Properties *)

(** ** Machine integers *)

Lemma u32_small z : uint_range z -> u32 z = z.
Proof. intros H. apply Z.mod_small, H. Qed.

Lemma u32_range z : uint_range (u32 z).
Proof. apply Z.mod_pos_bound. lia. Qed.

Lemma s32_small z : int_range z -> s32 z = z.
Proof.
  unfold int_range, s32. intros H.
  rewrite Z.mod_small by lia. lia.
Qed.

Lemma s32_range z : int_range (s32 z).
Proof.
  unfold int_range, s32.
  pose proof (Z.mod_pos_bound (z + 2 ^ 31) (2 ^ 32)). lia.
Qed.

Lemma s32_u32 z : s32 (u32 z) = s32 z.
Proof.
  unfold s32, u32. now rewrite Zplus_mod_idemp_l.
Qed.

(** The noise of [simtemp_mode_noisy] is [rnd % 200 - 100] as an integer. *)
Lemma noise_value rnd :
  s32 (u32 (u32 rnd mod 200 - 100)) = u32 rnd mod 200 - 100.
Proof.
  rewrite s32_u32. apply s32_small.
  pose proof (Z.mod_pos_bound (u32 rnd) 200). unfold int_range. lia.
Qed.

Lemma noise_bounds rnd :
  -100 <= s32 (u32 (u32 rnd mod 200 - 100)) <= 99.
Proof.
  rewrite noise_value. pose proof (Z.mod_pos_bound (u32 rnd) 200). lia.
Qed.

Section Tick.
Import Driver.

(** ** Timer tick *)

Lemma mode_normal_counters st :
  stats_updates (simtemp_mode_normal st) = stats_updates st /\
  simtemp_sample_seq (simtemp_mode_normal st) = simtemp_sample_seq st /\
  mode (simtemp_mode_normal st) = mode st.
Proof. unfold simtemp_mode_normal. case_tests; auto. Qed.

Lemma mode_noisy_counters rnd st :
  stats_updates (simtemp_mode_noisy rnd st) = stats_updates st /\
  simtemp_sample_seq (simtemp_mode_noisy rnd st) = simtemp_sample_seq st /\
  mode (simtemp_mode_noisy rnd st) = mode st.
Proof.
  unfold simtemp_mode_noisy. cbv zeta. case_tests; auto.
Qed.

Lemma mode_ramp_counters st :
  stats_updates (simtemp_mode_ramp st) = stats_updates st /\
  simtemp_sample_seq (simtemp_mode_ramp st) = simtemp_sample_seq st /\
  mode (simtemp_mode_ramp st) = mode st.
Proof.
  unfold simtemp_mode_ramp. cbv zeta. case_tests; auto.
Qed.

Lemma tick_counters rnd st :
  stats_updates (simtemp_update_temp rnd st) = u32 (stats_updates st + 1) /\
  simtemp_sample_seq (simtemp_update_temp rnd st)
    = u32 (simtemp_sample_seq st + 1).
Proof.
  unfold simtemp_update_temp. simpl.
  destruct (strcmp_eq (mode st) "noisy").
  { destruct (mode_noisy_counters rnd st) as (-> & -> & _). auto. }
  destruct (strcmp_eq (mode st) "ramp").
  { destruct (mode_ramp_counters st) as (-> & -> & _). auto. }
  destruct (strcmp_eq (mode st) "normal").
  { destruct (mode_normal_counters st) as (-> & -> & _). auto. }
  auto.
Qed.

Lemma tick_unrecognised rnd st :
  strcmp_eq (mode st) "noisy" || strcmp_eq (mode st) "ramp"
    || strcmp_eq (mode st) "normal" = false ->
  simtemp_update_temp rnd st
  = set_simtemp_sample_seq (u32 (simtemp_sample_seq st + 1))
      (set_stats_updates (u32 (stats_updates st + 1)) st).
Proof.
  unfold simtemp_update_temp.
  destruct (strcmp_eq (mode st) "noisy"); [discriminate|].
  destruct (strcmp_eq (mode st) "ramp"); [discriminate|].
  destruct (strcmp_eq (mode st) "normal"); [discriminate|].
  reflexivity.
Qed.

(** C6: every tick adds one to [stats_updates] and to
    [simtemp_sample_seq] (in 32-bit unsigned arithmetic, so literally one
    below the last value of the type), whatever the stored mode is; when
    the stored mode is not one of the three tokens the generator does
    nothing, so the tick changes the two counters and nothing else. *)
Theorem tick_counts_every_mode (rnd : Z) (st : state) :
  stats_updates (simtemp_update_temp rnd st) = u32 (stats_updates st + 1) /\
  simtemp_sample_seq (simtemp_update_temp rnd st)
    = u32 (simtemp_sample_seq st + 1) /\
  (0 <= stats_updates st < 2 ^ 32 - 1 ->
   stats_updates (simtemp_update_temp rnd st) = stats_updates st + 1) /\
  (0 <= simtemp_sample_seq st < 2 ^ 32 - 1 ->
   simtemp_sample_seq (simtemp_update_temp rnd st) = simtemp_sample_seq st + 1) /\
  (recognised (mode st) = false ->
   simtemp_current_mC (simtemp_update_temp rnd st) = simtemp_current_mC st /\
   simtemp_update_temp rnd st
     = set_simtemp_sample_seq (u32 (simtemp_sample_seq st + 1))
         (set_stats_updates (u32 (stats_updates st + 1)) st)).
Proof.
  destruct (tick_counters rnd st) as [Hu Hs].
  repeat split.
  - exact Hu.
  - exact Hs.
  - intros H. rewrite Hu. apply u32_small. unfold uint_range. lia.
  - intros H. rewrite Hs. apply u32_small. unfold uint_range. lia.
  - rewrite (tick_unrecognised rnd st H). reflexivity.
  - apply tick_unrecognised, H.
Qed.

Lemma tick_counts_every_mode_witness :
  let st := set_mode "turbo" init in
  recognised (mode st) = false /\
  simtemp_current_mC (simtemp_update_temp 7 st) = 44000 /\
  stats_updates (simtemp_update_temp 7 st) = 1 /\
  simtemp_sample_seq (simtemp_update_temp 7 st) = 1.
Proof.
  intros st.
  destruct (tick_counts_every_mode 7 st) as (_ & _ & Hu & Hs & Hn).
  split; [reflexivity|].
  destruct (Hn eq_refl) as [Hc _].
  split; [exact Hc|].
  split; [apply Hu; simpl; lia | apply Hs; simpl; lia].
Defined.

End Tick.

Section Generator.
Import Driver.

(** ** Generator bounds *)

Lemma tick_normal rnd st :
  mode st = "normal" ->
  simtemp_update_temp rnd st
  = set_simtemp_sample_seq (u32 (simtemp_sample_seq st + 1))
      (set_stats_updates (u32 (stats_updates st + 1)) (simtemp_mode_normal st)).
Proof.
  intros Hm. unfold simtemp_update_temp. rewrite Hm. simpl.
  destruct (mode_normal_counters st) as (-> & -> & _). reflexivity.
Qed.

Lemma tick_noisy rnd st :
  mode st = "noisy" ->
  simtemp_update_temp rnd st
  = set_simtemp_sample_seq (u32 (simtemp_sample_seq st + 1))
      (set_stats_updates (u32 (stats_updates st + 1)) (simtemp_mode_noisy rnd st)).
Proof.
  intros Hm. unfold simtemp_update_temp. rewrite Hm. simpl.
  destruct (mode_noisy_counters rnd st) as (-> & -> & _). reflexivity.
Qed.

Lemma tick_ramp rnd st :
  mode st = "ramp" ->
  simtemp_update_temp rnd st
  = set_simtemp_sample_seq (u32 (simtemp_sample_seq st + 1))
      (set_stats_updates (u32 (stats_updates st + 1)) (simtemp_mode_ramp st)).
Proof.
  intros Hm. unfold simtemp_update_temp. rewrite Hm. simpl.
  destruct (mode_ramp_counters st) as (-> & -> & _). reflexivity.
Qed.

Lemma normal_inv_tick rnd st : normal_inv st -> normal_inv (simtemp_update_temp rnd st).
Proof.
  intros [Hm Hc]. rewrite tick_normal by exact Hm.
  unfold normal_inv, simtemp_mode_normal. simpl.
  rewrite s32_small by (unfold int_range; lia).
  destruct (Z.ltb_spec 46000 (simtemp_current_mC st + 10)); simpl; split; auto; lia.
Qed.

Lemma noisy_inv_tick rnd st : noisy_inv st -> noisy_inv (simtemp_update_temp rnd st).
Proof.
  intros [Hm Hc]. rewrite tick_noisy by exact Hm.
  unfold noisy_inv, simtemp_mode_noisy. cbv zeta.
  pose proof (noise_bounds rnd) as Hn.
  set (noise := s32 (u32 (u32 rnd mod 200 - 100))) in *.
  simpl.
  rewrite s32_small by (unfold int_range; lia).
  destruct (Z.ltb_spec 46000 (simtemp_current_mC st + noise)); simpl.
  - destruct (Z.ltb_spec 46000 44000); simpl; split; auto; lia.
  - destruct (Z.ltb_spec (simtemp_current_mC st + noise) 44000); simpl; split; auto; lia.
Qed.

Lemma ramp_inv_tick rnd st : ramp_inv st -> ramp_inv (simtemp_update_temp rnd st).
Proof.
  intros (Hm & Hc & [k Hk] & Hd & Hlo & Hhi). rewrite tick_ramp by exact Hm.
  unfold ramp_inv, simtemp_mode_ramp. cbv zeta. simpl.
  assert (Hs : s32 (direction st * 50) = direction st * 50)
    by (apply s32_small; unfold int_range; lia).
  rewrite Hs.
  rewrite s32_small by (unfold int_range; lia).
  assert (Hstep : 44000 <= simtemp_current_mC st + direction st * 50 <= 46000) by lia.
  destruct (Z.leb_spec 46000 (simtemp_current_mC st + direction st * 50)); simpl;
    destruct (Z.leb_spec (simtemp_current_mC st + direction st * 50) 44000); simpl;
    (split; [exact Hm|]); (split; [lia|]);
    (split; [exists (k + direction st); lia|]); lia.
Qed.

Lemma ticks_invariant (P : state -> Prop) :
  (forall rnd st, P st -> P (simtemp_update_temp rnd st)) ->
  forall rnds st, P st -> P (ticks rnds st).
Proof.
  intros Hstep rnds. unfold ticks.
  induction rnds as [|rnd rnds IH]; intros st H; simpl; auto.
Qed.

(** In normal mode the reading 46010 is only a transient inside
    [simtemp_mode_normal]: what the tick leaves behind is at most 46000. *)
Lemma normal_reading_at_most_46000 (rnds : list Z) :
  44000 <= simtemp_current_mC (ticks rnds (start_in "normal")) <= 46000.
Proof.
  assert (H : normal_inv (ticks rnds (start_in "normal"))).
  { apply ticks_invariant; [apply normal_inv_tick|].
    split; [reflexivity | simpl; lia]. }
  apply H.
Qed.

(** C7: from the initial reading 44000, any number of ticks in one mode
    keeps the reading within the bounds of that mode: [44000, 46010] in
    normal mode, [44000, 46000] in ramp mode, and [44000, 46000] in noisy
    mode whatever the random values are. *)
Theorem generator_bounds :
  (forall rnds : list Z,
     44000 <= simtemp_current_mC (ticks rnds (start_in "normal")) <= 46010) /\
  (forall rnds : list Z,
     44000 <= simtemp_current_mC (ticks rnds (start_in "ramp")) <= 46000) /\
  (forall rnds : list Z,
     44000 <= simtemp_current_mC (ticks rnds (start_in "noisy")) <= 46000).
Proof.
  split; [|split]; intros rnds.
  - assert (H : normal_inv (ticks rnds (start_in "normal"))).
    { apply ticks_invariant; [apply normal_inv_tick|].
      split; [reflexivity | simpl; lia]. }
    destruct H as [_ H]. lia.
  - assert (H : ramp_inv (ticks rnds (start_in "ramp"))).
    { apply ticks_invariant; [apply ramp_inv_tick|].
      split; [reflexivity|]. simpl.
      split; [lia|]. split; [exists 0; lia|]. split; [auto|]. split; [auto|lia]. }
    destruct H as (_ & H & _). exact H.
  - assert (H : noisy_inv (ticks rnds (start_in "noisy"))).
    { apply ticks_invariant; [apply noisy_inv_tick|].
      split; [reflexivity | simpl; lia]. }
    destruct H as [_ H]. exact H.
Qed.

End Generator.

Section Frames.
Import Driver.

(** ** What each operation can change *)

Lemma sampling_ms_store_cases buf st :
  (exists v, kstrtouint buf = inl v /\ v <> 0 /\
             sampling_ms_store buf st
             = (set_sampling_ms v st, Z.of_nat (String.length buf))) \/
  ((forall v, kstrtouint buf = inl v -> v = 0) /\
   sampling_ms_store buf st = (set_stats_last_error (- EINVAL) st, - EINVAL)).
Proof.
  unfold sampling_ms_store.
  destruct (kstrtouint buf) as [v|e] eqn:Hk.
  - destruct (Z.eqb_spec v 0) as [->|Hv].
    + right. split; [|reflexivity]. intros v [= <-]. reflexivity.
    + left. exists v. auto.
  - right. split; [|reflexivity]. intros v [=].
Qed.

Lemma threshold_mC_store_cases buf st :
  (exists v, kstrtoint buf = inl v /\
             threshold_mC_store buf st
             = (set_threshold_mC v st, Z.of_nat (String.length buf))) \/
  ((forall v, kstrtoint buf <> inl v) /\
   threshold_mC_store buf st = (set_stats_last_error (- EINVAL) st, - EINVAL)).
Proof.
  unfold threshold_mC_store.
  destruct (kstrtoint buf) as [v|e] eqn:Hk.
  - left. exists v. auto.
  - right. split; [|reflexivity]. intros v [=].
Qed.

Lemma mode_store_cases buf st :
  (exists m, mode_store buf st = (set_mode m st, Z.of_nat (String.length buf))) \/
  mode_store buf st = (set_stats_last_error (- EINVAL) st, - EINVAL).
Proof.
  unfold mode_store. cbv zeta.
  match goal with
  | |- context [if ?b then (set_stats_last_error _ _, _) else _] => destruct b
  end.
  - right. reflexivity.
  - left. eexists. reflexivity.
Qed.

Lemma run_env_op_stable (P : state -> Prop) :
  store_stable P ->
  (forall rnd st, P st -> P (simtemp_update_temp rnd st)) ->
  forall o st, P st -> P (run_env_op o st).
Proof.
  intros Hs Ht o st H. destruct (Hs st H) as (H1 & H2 & H3 & H4).
  destruct o as [rnd|buf|buf|buf]; simpl.
  - apply Ht, H.
  - destruct (sampling_ms_store_cases buf st) as [(v & _ & _ & ->)|[_ ->]]; simpl; auto.
  - destruct (threshold_mC_store_cases buf st) as [(v & _ & ->)|[_ ->]]; simpl; auto.
  - destruct (mode_store_cases buf st) as [(m & ->)| ->]; simpl; auto.
Qed.

Lemma run_env_ops_stable (P : state -> Prop) :
  store_stable P ->
  (forall rnd st, P st -> P (simtemp_update_temp rnd st)) ->
  forall os st, P st -> P (run_env_ops os st).
Proof.
  intros Hs Ht os. unfold run_env_ops.
  induction os as [|o os IH]; intros st H; simpl; [exact H|].
  apply IH. apply run_env_op_stable; auto.
Qed.

Lemma wait_stable (P : state -> Prop) :
  store_stable P ->
  (forall rnd st, P st -> P (simtemp_update_temp rnd st)) ->
  forall prev evs st,
    P st -> P (outcome_state (wait_event_interruptible prev evs st)).
Proof.
  intros Hs Ht prev evs.
  induction evs as [|ev evs IH]; intros st H; simpl.
  - destruct (negb _); exact H.
  - destruct (negb _); [exact H|].
    destruct ev as [o|]; [|exact H].
    apply IH. apply run_env_op_stable; auto.
Qed.

Lemma read_locked_cases now st :
  let alert := if threshold_mC st <=? simtemp_current_mC st then 1 else 0 in
  snd (read_locked now st)
  = if negb (alert =? last_alert_state st)
    then set_last_alert_state alert
           (set_stats_alerts (u32 (stats_alerts st + 1)) st)
    else st.
Proof. unfold read_locked. cbv zeta. reflexivity. Qed.

Lemma read_locked_stable (P : state -> Prop) now st :
  read_stable P -> P st -> P (snd (read_locked now st)).
Proof.
  intros Hr H. rewrite read_locked_cases. cbv zeta.
  destruct (negb _); [apply Hr, H | exact H].
Qed.

Lemma simtemp_read_stable (P : state -> Prop) :
  store_stable P -> read_stable P ->
  (forall rnd st, P st -> P (simtemp_update_temp rnd st)) ->
  forall file count env st,
    P st -> P (state_after (simtemp_read file count env st)).
Proof.
  intros Hs Hr Ht file count env st H. unfold simtemp_read. cbv zeta.
  pose proof (wait_stable P Hs Ht (simtemp_sample_seq st) (wait_events env) st H) as Hw.
  destruct (wait_event_interruptible _ _ _) as [stw|stw|stw]; simpl in Hw.
  - pose proof (run_env_ops_stable P Hs Ht (late_ops env) stw Hw) as Hl.
    pose proof (read_locked_stable P (ktime_ns env) _ Hr Hl) as Hm.
    destruct (read_locked _ _) as [sample stm]. simpl in Hm.
    destruct (count <? sizeof_sample)%nat; [apply Hr, Hm|].
    destruct (negb _); [apply Hr, Hm | exact Hm].
  - apply Hr, Hw.
  - exact Hw.
Qed.

Lemma run_stable (P : state -> Prop) :
  store_stable P -> read_stable P ->
  (forall rnd st, P st -> P (simtemp_update_temp rnd st)) ->
  forall ops st, P st -> P (run ops st).
Proof.
  intros Hs Hr Ht ops. unfold run.
  induction ops as [|o ops IH]; intros st H; simpl; [exact H|].
  apply IH. destruct o as [e|file count env]; simpl.
  - apply run_env_op_stable; auto.
  - apply simtemp_read_stable; auto.
Qed.

(** ** The two counters of the tick *)

Lemma counters_agree_store_stable : store_stable counters_agree.
Proof. intros st H. unfold counters_agree in *. simpl. auto. Qed.

Lemma counters_agree_read_stable : read_stable counters_agree.
Proof. intros st H. unfold counters_agree in *. simpl. auto. Qed.

Lemma counters_agree_tick rnd st :
  counters_agree st -> counters_agree (simtemp_update_temp rnd st).
Proof.
  unfold counters_agree. intros H.
  destruct (tick_counters rnd st) as [-> ->]. now rewrite H.
Qed.

End Frames.

(** The stability lemmas, for [auto]. *)
Create HintDb stable.
#[global] Hint Resolve counters_agree_store_stable counters_agree_read_stable
  counters_agree_tick : stable.

Section Counters.
Import Driver.

Lemma advanced_together_store_stable st0 : store_stable (advanced_together st0).
Proof. intros st H. unfold advanced_together in *. simpl. auto. Qed.

Lemma advanced_together_read_stable st0 : read_stable (advanced_together st0).
Proof. intros st H. unfold advanced_together in *. simpl. auto. Qed.

Lemma advanced_together_tick st0 rnd st :
  advanced_together st0 st -> advanced_together st0 (simtemp_update_temp rnd st).
Proof.
  intros (n & Hu & Hs). exists (S n).
  destruct (tick_counters rnd st) as [-> ->].
  simpl. unfold bump at 1 3. now rewrite Hu, Hs.
Qed.

#[local] Hint Resolve advanced_together_store_stable
  advanced_together_read_stable advanced_together_tick : stable.

Lemma store_counters buf st :
  (stats_updates (fst (sampling_ms_store buf st)) = stats_updates st /\
   simtemp_sample_seq (fst (sampling_ms_store buf st)) = simtemp_sample_seq st) /\
  (stats_updates (fst (threshold_mC_store buf st)) = stats_updates st /\
   simtemp_sample_seq (fst (threshold_mC_store buf st)) = simtemp_sample_seq st) /\
  (stats_updates (fst (mode_store buf st)) = stats_updates st /\
   simtemp_sample_seq (fst (mode_store buf st)) = simtemp_sample_seq st).
Proof.
  destruct (sampling_ms_store_cases buf st) as [(v & _ & _ & ->)|[_ ->]];
  destruct (threshold_mC_store_cases buf st) as [(w & _ & ->)|[_ ->]];
  destruct (mode_store_cases buf st) as [(m & ->)| ->]; simpl; auto.
Qed.

(** C10: [stats_updates] and [simtemp_sample_seq] are both zero once the
    driver is probed and are equal after every run of ticks, sysfs stores
    and reads: the tick increments both, no store changes either, the
    critical section and the error paths of a read change neither, and a
    read as a whole leaves both advanced by the same number of increments
    (those of the ticks that took place while it waited). *)
Theorem updates_equals_sample_seq :
  stats_updates init = 0 /\
  simtemp_sample_seq init = 0 /\
  (forall ops : list op,
     stats_updates (run ops init) = simtemp_sample_seq (run ops init)) /\
  (forall (rnd : Z) (st : state),
     stats_updates (simtemp_update_temp rnd st) = bump (stats_updates st) /\
     simtemp_sample_seq (simtemp_update_temp rnd st) = bump (simtemp_sample_seq st)) /\
  (forall (buf : string) (st : state),
     (stats_updates (fst (sampling_ms_store buf st)) = stats_updates st /\
      simtemp_sample_seq (fst (sampling_ms_store buf st)) = simtemp_sample_seq st) /\
     (stats_updates (fst (threshold_mC_store buf st)) = stats_updates st /\
      simtemp_sample_seq (fst (threshold_mC_store buf st)) = simtemp_sample_seq st) /\
     (stats_updates (fst (mode_store buf st)) = stats_updates st /\
      simtemp_sample_seq (fst (mode_store buf st)) = simtemp_sample_seq st)) /\
  (forall (now e : Z) (st : state),
     stats_updates (snd (read_locked now st)) = stats_updates st /\
     simtemp_sample_seq (snd (read_locked now st)) = simtemp_sample_seq st /\
     stats_updates (set_stats_last_error e st) = stats_updates st /\
     simtemp_sample_seq (set_stats_last_error e st) = simtemp_sample_seq st) /\
  (forall (file count : nat) (env : read_env) (st : state),
     advanced_together st (state_after (simtemp_read file count env st))).
Proof.
  split; [reflexivity|]. split; [reflexivity|].
  split.
  { intros ops.
    apply (run_stable counters_agree); auto with stable.
    reflexivity. }
  split; [intros; apply tick_counters|].
  split; [apply store_counters|].
  split.
  { intros now e st. rewrite read_locked_cases. cbv zeta.
    destruct (negb _); simpl; auto. }
  intros file count env st.
  apply (simtemp_read_stable (advanced_together st)); auto with stable.
  exists 0%nat. auto.
Qed.

End Counters.

Section Wire.

(** ** The bytes of a record *)

Lemma le_bytes_length n v : length (le_bytes n v) = n.
Proof. revert v. induction n as [|n IH]; intros v; simpl; auto. Qed.

Lemma le_value_le_bytes n v : le_value (le_bytes n v) = v mod 256 ^ Z.of_nat n.
Proof.
  revert v. induction n as [|n IH]; intros v.
  - simpl. now rewrite Z.mod_1_r.
  - cbn [le_bytes le_value]. rewrite IH.
    rewrite Nat2Z.inj_succ, Z.pow_succ_r by lia.
    rewrite (Z.mul_comm 256), Z.rem_mul_r by lia. lia.
Qed.

Lemma sample_bytes_length s : length (sample_bytes s) = sizeof_sample.
Proof.
  unfold sample_bytes. rewrite !length_app, !le_bytes_length. reflexivity.
Qed.

Lemma record_timestamp_bytes s :
  record_timestamp (sample_bytes s) = u64 (timestamp_ns s).
Proof.
  unfold record_timestamp, sample_bytes.
  rewrite take_app_length' by (now rewrite le_bytes_length).
  apply le_value_le_bytes.
Qed.

Lemma record_temp_bytes s :
  record_temp (sample_bytes s) = s32 (temp_mC s).
Proof.
  unfold record_temp, sample_bytes.
  rewrite drop_app_length' by (now rewrite le_bytes_length).
  rewrite take_app_length' by (now rewrite le_bytes_length).
  rewrite le_value_le_bytes. apply s32_u32.
Qed.

Lemma record_flags_bytes s :
  record_flags (sample_bytes s) = u32 (flags s).
Proof.
  unfold record_flags, sample_bytes.
  rewrite app_assoc.
  rewrite drop_app_length' by (now rewrite length_app, !le_bytes_length).
  rewrite take_ge by (now rewrite le_bytes_length).
  apply le_value_le_bytes.
Qed.

End Wire.

Section ReadProtocol.
Import Driver.

(** ** Read protocol *)

Lemma reading_in_range_store_stable : store_stable reading_in_range.
Proof. intros st H. unfold reading_in_range in *. simpl. auto. Qed.

Lemma reading_in_range_tick rnd st :
  reading_in_range st -> reading_in_range (simtemp_update_temp rnd st).
Proof.
  unfold reading_in_range, simtemp_update_temp. intros H. simpl.
  assert (H0 : int_range 44000) by (unfold int_range; lia).
  assert (H1 : int_range 46000) by (unfold int_range; lia).
  destruct (strcmp_eq (mode st) "noisy").
  { unfold simtemp_mode_noisy. cbv zeta. case_tests; auto using s32_range. }
  destruct (strcmp_eq (mode st) "ramp").
  { unfold simtemp_mode_ramp. cbv zeta. case_tests; auto using s32_range. }
  destruct (strcmp_eq (mode st) "normal").
  { unfold simtemp_mode_normal. case_tests; auto using s32_range. }
  exact H.
Qed.

Lemma read_locked_sample now st : fst (read_locked now st) = sample_of now st.
Proof.
  unfold read_locked, sample_of. cbv zeta.
  destruct (threshold_mC st <=? simtemp_current_mC st); reflexivity.
Qed.

#[local] Hint Resolve reading_in_range_store_stable reading_in_range_tick : stable.

(** The ways a call to [simtemp_read] returns. *)
Lemma simtemp_read_returns file count env st st' ret user :
  simtemp_read file count env st = Returned st' ret user ->
  (exists stw,
     wait_event_interruptible (simtemp_sample_seq st) (wait_events env) st
       = Interrupted stw /\
     st' = set_stats_last_error (- ERESTARTSYS) stw /\
     ret = - ERESTARTSYS /\ user = []) \/
  (exists stm,
     materialised_from env st stm /\
     ((count < sizeof_sample)%nat /\
      st' = set_stats_last_error (- EINVAL) (snd (read_locked (ktime_ns env) stm)) /\
      ret = - EINVAL /\ user = []
      \/
      (sizeof_sample <= count)%nat /\ not_copied env <> 0%nat /\
      st' = set_stats_last_error (- EFAULT) (snd (read_locked (ktime_ns env) stm)) /\
      ret = - EFAULT /\
      user = take (sizeof_sample - not_copied env)
               (sample_bytes (sample_of (ktime_ns env) stm))
      \/
      (sizeof_sample <= count)%nat /\ not_copied env = 0%nat /\
      st' = snd (read_locked (ktime_ns env) stm) /\
      ret = Z.of_nat sizeof_sample /\
      user = sample_bytes (sample_of (ktime_ns env) stm))).
Proof.
  unfold simtemp_read. cbv zeta.
  destruct (wait_event_interruptible _ _ _) as [stw|stw|stw] eqn:Hw; [| |discriminate].
  - intros H. right. exists (run_env_ops (late_ops env) stw).
    split; [exists stw; auto|].
    rewrite <- read_locked_sample.
    destruct (read_locked _ _) as [sample stl]. simpl.
    destruct (Nat.ltb_spec count sizeof_sample).
    { injection H as <- <- <-. left. auto. }
    destruct (Nat.eqb_spec (not_copied env) 0); simpl in H.
    { injection H as <- <- <-. right. right. auto. }
    injection H as <- <- <-. right. left. auto.
  - intros [= <- <- <-]. left. exists stw. auto.
Qed.

(** C9: a successful read hands the consumer one record of exactly 16
    bytes: the timestamp at offset 0, the reading at offset 8 and the flags
    at offset 12; bit 0 of the flags is set, bit 1 is set exactly when the
    reading is at or above the threshold in the state the lock was taken in,
    and no other bit is set. *)
Theorem successful_read_record
    (file count : nat) (env : read_env) (st st' : state) (ret : Z) (user : list Z) :
  int_range (simtemp_current_mC st) ->
  simtemp_read file count env st = Returned st' ret user ->
  0 <= ret ->
  ret = 16 /\
  length user = 16%nat /\
  exists stm,
    materialised_from env st stm /\
    record_timestamp user = u64 (ktime_ns env) /\
    record_temp user = simtemp_current_mC stm /\
    Z.testbit (record_flags user) 0 = true /\
    Z.testbit (record_flags user) 1 = (threshold_mC stm <=? record_temp user) /\
    (forall i, 2 <= i -> Z.testbit (record_flags user) i = false).
Proof.
  intros Hr H Hret.
  destruct (simtemp_read_returns _ _ _ _ _ _ _ H)
    as [(stw & _ & _ & -> & _)
       |(stm & Hm & [(_ & _ & -> & _)
                    |[(_ & _ & _ & -> & _)|(_ & _ & _ & -> & ->)]])];
    try (unfold ERESTARTSYS, EINVAL, EFAULT in Hret; lia).
  split; [reflexivity|]. split; [apply sample_bytes_length|].
  exists stm. split; [exact Hm|].
  assert (Hc : int_range (simtemp_current_mC stm)).
  { destruct Hm as (stw & Hw & ->).
    apply (run_env_ops_stable reading_in_range); auto with stable.
    assert (Hs : reading_in_range
                   (outcome_state
                      (wait_event_interruptible (simtemp_sample_seq st)
                         (wait_events env) st)))
      by (apply wait_stable; auto with stable).
    now rewrite Hw in Hs. }
  rewrite record_timestamp_bytes, record_temp_bytes, record_flags_bytes. simpl.
  rewrite (s32_small _ Hc).
  split; [apply Z.mod_mod; lia|]. split; [reflexivity|].
  destruct (threshold_mC stm <=? simtemp_current_mC stm).
  - split; [reflexivity|]. split; [reflexivity|].
    intros i Hi. change (u32 3) with 3.
    destruct i as [|p|p]; try lia.
    destruct p as [p|p|]; try lia; destruct p; reflexivity.
  - split; [reflexivity|]. split; [reflexivity|].
    intros i Hi. change (u32 1) with 1.
    destruct i as [|p|p]; try lia.
    destruct p as [p|p|]; try lia; reflexivity.
Qed.

Lemma successful_read_record_witness :
  let env := mkEnv [Happens (Tick 0)] [] 1000 0 in
  exists st' user,
    simtemp_read 0 16 env init = Returned st' 16 user /\
    length user = 16%nat /\
    record_temp user = 44010 /\
    record_flags user = 1.
Proof.
  intros env.
  assert (Hr : int_range (simtemp_current_mC init)) by (unfold int_range; simpl; lia).
  eexists _, _. split; [reflexivity|].
  destruct (successful_read_record 0 16 env init _ 16 _ Hr eq_refl ltac:(lia))
    as (_ & Hlen & _).
  split; [exact Hlen|]. split; reflexivity.
Defined.

End ReadProtocol.

Section LastError.
Import Driver.

(** ** [stats_last_error] *)

Lemma tick_frame rnd st :
  sampling_ms (simtemp_update_temp rnd st) = sampling_ms st /\
  threshold_mC (simtemp_update_temp rnd st) = threshold_mC st /\
  mode (simtemp_update_temp rnd st) = mode st /\
  stats_alerts (simtemp_update_temp rnd st) = stats_alerts st /\
  stats_last_error (simtemp_update_temp rnd st) = stats_last_error st /\
  last_alert_state (simtemp_update_temp rnd st) = last_alert_state st.
Proof.
  unfold simtemp_update_temp, simtemp_mode_noisy, simtemp_mode_ramp,
    simtemp_mode_normal.
  cbv zeta. case_tests; simpl; auto 10.
Qed.

Lemma read_locked_last_error now st :
  stats_last_error (snd (read_locked now st)) = stats_last_error st.
Proof. rewrite read_locked_cases. cbv zeta. now destruct (negb _). Qed.

(** C5 fails on the driver: a read of the freshly probed driver that a
    signal interrupts returns [-ERESTARTSYS] and leaves that value in
    [stats_last_error], which was 0. *)
Lemma interrupted_read_sets_last_error :
  simtemp_read 0 16 (mkEnv [Signal] [] 0 0) init
    = Returned (set_stats_last_error (-512) init) (-512) [] /\
  stats_last_error (set_stats_last_error (-512) init) = -512 /\
  stats_last_error init = 0 /\
  ~ interrupted_read_keeps_last_error.
Proof.
  split; [reflexivity|]. split; [reflexivity|]. split; [reflexivity|].
  intros H.
  specialize (H 0%nat 16%nat (mkEnv [Signal] [] 0 0) init _ _ eq_refl).
  discriminate H.
Qed.

(** C5, amended: every failure of a read is recorded in [stats_last_error]:
    an interrupted wait as [-ERESTARTSYS], a buffer smaller than the record
    as [-EINVAL], a failed copy as [-EFAULT], and a read fails in no other
    way; a rejected store is recorded as [-EINVAL].  A successful read
    leaves [stats_last_error] as it was when the lock was taken, an accepted
    store and a tick leave it unchanged. *)
Theorem failures_recorded_in_last_error :
  (forall file count env st st' ret user,
     simtemp_read file count env st = Returned st' ret user ->
     (ret = - ERESTARTSYS \/ ret = - EINVAL \/ ret = - EFAULT) /\
     stats_last_error st' = ret
     \/
     ret = 16 /\
     exists stm, materialised_from env st stm /\
                 stats_last_error st' = stats_last_error stm) /\
  (forall file count env st stw,
     wait_event_interruptible (simtemp_sample_seq st) (wait_events env) st
       = Interrupted stw ->
     simtemp_read file count env st
       = Returned (set_stats_last_error (- ERESTARTSYS) stw) (- ERESTARTSYS) []) /\
  (forall buf st,
     (0 <= snd (sampling_ms_store buf st) /\
      stats_last_error (fst (sampling_ms_store buf st)) = stats_last_error st
      \/ snd (sampling_ms_store buf st) = - EINVAL /\
         stats_last_error (fst (sampling_ms_store buf st)) = - EINVAL) /\
     (0 <= snd (threshold_mC_store buf st) /\
      stats_last_error (fst (threshold_mC_store buf st)) = stats_last_error st
      \/ snd (threshold_mC_store buf st) = - EINVAL /\
         stats_last_error (fst (threshold_mC_store buf st)) = - EINVAL) /\
     (0 <= snd (mode_store buf st) /\
      stats_last_error (fst (mode_store buf st)) = stats_last_error st
      \/ snd (mode_store buf st) = - EINVAL /\
         stats_last_error (fst (mode_store buf st)) = - EINVAL)) /\
  (forall rnd st,
     stats_last_error (simtemp_update_temp rnd st) = stats_last_error st).
Proof.
  split; [|split; [|split]].
  - intros file count env st st' ret user H.
    destruct (simtemp_read_returns _ _ _ _ _ _ _ H)
      as [(stw & _ & -> & -> & _)
         |(stm & Hm & [(_ & -> & -> & _)|[(_ & _ & -> & -> & _)|(_ & _ & -> & -> & _)]])].
    + left. auto.
    + left. auto.
    + left. auto.
    + right. split; [reflexivity|]. exists stm. split; [exact Hm|].
      apply read_locked_last_error.
  - intros file count env st stw Hw. unfold simtemp_read. cbv zeta.
    now rewrite Hw.
  - intros buf st.
    destruct (sampling_ms_store_cases buf st) as [(v & _ & _ & ->)|[_ ->]];
    destruct (threshold_mC_store_cases buf st) as [(w & _ & ->)|[_ ->]];
    destruct (mode_store_cases buf st) as [(m & ->)| ->]; simpl;
      repeat split; auto; left; split; auto; lia.
  - intros rnd st. apply tick_frame.
Qed.

Lemma failures_recorded_in_last_error_witness :
  simtemp_read 0 16 (mkEnv [Signal] [] 0 0) init
    = Returned (set_stats_last_error (- ERESTARTSYS) init) (- ERESTARTSYS) [] /\
  exists st',
    simtemp_read 0 4 (mkEnv [Happens (Tick 0)] [] 0 0) init = Returned st' (-22) [] /\
    stats_last_error st' = -22.
Proof.
  destruct failures_recorded_in_last_error as (Hread & Hsig & _).
  split.
  - apply (Hsig 0%nat 16%nat (mkEnv [Signal] [] 0 0) init init). reflexivity.
  - eexists. split; [reflexivity|].
    destruct (Hread 0%nat 4%nat (mkEnv [Happens (Tick 0)] [] 0 0) init _ _ _ eq_refl)
      as [[_ H]|[H _]]; [exact H | discriminate H].
Defined.

End LastError.

Section ModeStore.
Import Driver.

(** ** The mode setter *)

Lemma c_str_nul_free s : nul_free s = true -> c_str s = s.
Proof.
  induction s as [|c r IH]; simpl; [reflexivity|].
  destruct (Ascii.eqb c NUL); simpl; [discriminate|].
  intros H. now rewrite IH.
Qed.

Lemma memcpy_length n s : String.length (memcpy n s) = Nat.min n (String.length s).
Proof.
  revert s. induction n as [|n IH]; intros [|c r]; simpl; auto.
Qed.

Lemma memcpy_all n s : (String.length s <= n)%nat -> memcpy n s = s.
Proof.
  revert s. induction n as [|n IH]; intros [|c r]; simpl; auto; intros H.
  - lia.
  - rewrite IH by lia. reflexivity.
Qed.

Lemma memcpy_nul_free n s : nul_free s = true -> nul_free (memcpy n s) = true.
Proof.
  revert s. induction n as [|n IH]; intros [|c r]; simpl; auto.
  destruct (Ascii.eqb c NUL); simpl; [discriminate|]. apply IH.
Qed.

Lemma append_cons c s t : String c s +:+ t = String c (s +:+ t).
Proof. reflexivity. Qed.

Lemma tmp_token_cons c d r :
  Ascii.eqb c NUL = false ->
  tmp_token (String c (String d r)) = String c (tmp_token (String d r)).
Proof.
  intros Hc. unfold tmp_token, char_at. cbn [String.length].
  replace (S (S (String.length r)) - 1)%nat with (S (String.length r)) by lia.
  replace (S (String.length r) - 1)%nat with (String.length r) by lia.
  change (0 <? S (S (String.length r)))%nat with true.
  change (0 <? S (String.length r))%nat with true.
  rewrite (append_cons c).
  cbn [andb String.get store_char].
  match goal with
  | |- context [match ?x with Some c => _ | None => _ end] =>
      destruct x as [e|]; [destruct (Ascii.eqb e LF)|]
  end; cbn [c_str]; rewrite Hc; reflexivity.
Qed.

Lemma tmp_token_strip p : nul_free p = true -> tmp_token p = strip_newline p.
Proof.
  induction p as [|c r IH]; [reflexivity|].
  cbn [nul_free]. intros H. apply andb_prop in H as [Hc Hr].
  apply negb_true_iff in Hc.
  destruct r as [|d r].
  - unfold tmp_token. simpl. destruct (Ascii.eqb c LF) eqn:E; simpl.
    + reflexivity.
    + now rewrite Hc.
  - rewrite tmp_token_cons by exact Hc. rewrite IH by exact Hr. reflexivity.
Qed.

Lemma strip_newline_length s :
  (String.length s <= S (String.length (strip_newline s)))%nat.
Proof.
  induction s as [|c r IH]; simpl; [lia|].
  destruct r as [|d r]; [destruct (Ascii.eqb c LF); simpl; lia|].
  cbn [String.length] in *. lia.
Qed.

Lemma valid_mode_length m : valid_mode m = true -> (String.length m <= 6)%nat.
Proof.
  unfold valid_mode. intros H.
  apply orb_prop in H as [H|H]; [apply orb_prop in H as [H|H]|];
    apply String.eqb_eq in H; subst m; simpl; lia.
Qed.

(** What [mode_store] decides on: the C string of [tmp]. *)
Lemma mode_store_token buf st :
  let p := memcpy (Nat.min (String.length buf) (16 - 1)) buf in
  mode_store buf st
  = if valid_mode (tmp_token p)
    then (set_mode (tmp_token p) st, Z.of_nat (String.length buf))
    else (set_stats_last_error (- EINVAL) st, - EINVAL).
Proof.
  intros p. unfold mode_store. cbv zeta.
  assert (Hlen : String.length p = Nat.min (String.length buf) (16 - 1)).
  { unfold p. rewrite memcpy_length. lia. }
  fold p. rewrite <- Hlen.
  unfold strcmp_eq. fold (tmp_token p).
  change (c_str "normal") with "normal".
  change (c_str "noisy") with "noisy".
  change (c_str "ramp") with "ramp".
  unfold valid_mode.
  destruct (String.eqb (tmp_token p) "normal"); [reflexivity|].
  destruct (String.eqb (tmp_token p) "noisy"); [reflexivity|].
  destruct (String.eqb (tmp_token p) "ramp"); reflexivity.
Qed.

(** C8 fails on inputs that hold a NUL byte: the setter compares what it
    copied as a C string.  The eight bytes of "ramp", NUL, "xyz" are not a
    token and have no trailing newline, yet the write is accepted and
    "ramp" is stored; the six bytes of "ramp", newline, NUL are rejected
    although the C string they hold is "ramp" and a newline, because the
    newline test looks at the last byte copied, which is the NUL. *)
Lemma mode_store_accepts_past_nul :
  valid_mode (strip_newline ("ramp" +:+ String NUL "xyz")) = false /\
  mode_store ("ramp" +:+ String NUL "xyz") init = (set_mode "ramp" init, 8) /\
  c_str ("ramp" +:+ String LF (String NUL EmptyString)) = "ramp" +:+ String LF EmptyString /\
  mode_store ("ramp" +:+ String LF (String NUL EmptyString)) init
    = (set_stats_last_error (- EINVAL) init, - EINVAL) /\
  ~ mode_setter_judges_every_byte.
Proof.
  repeat split; try reflexivity.
  intros H.
  destruct (H ("ramp" +:+ String NUL "xyz") init) as [_ Hr].
  specialize (Hr eq_refl). discriminate Hr.
Qed.

(** C8, for the strings of C: on every input with no NUL byte inside, the
    mode setter accepts exactly when the input, with one trailing newline
    taken off, is "normal", "noisy" or "ramp" (compared byte for byte); it
    then stores that token and returns the number of bytes written.
    Every other such input is rejected with [-EINVAL]: the stored mode
    stays as it was and [stats_last_error] becomes [-EINVAL]. *)
Theorem mode_store_accepts_tokens (s : string) (st : state) :
  nul_free s = true ->
  (valid_mode (strip_newline s) = true ->
   mode_store s st = (set_mode (strip_newline s) st, Z.of_nat (String.length s)) /\
   mode (fst (mode_store s st)) = strip_newline s /\
   stats_last_error (fst (mode_store s st)) = stats_last_error st) /\
  (valid_mode (strip_newline s) = false ->
   mode_store s st = (set_stats_last_error (- EINVAL) st, - EINVAL) /\
   mode (fst (mode_store s st)) = mode st /\
   stats_last_error (fst (mode_store s st)) = - EINVAL).
Proof.
  intros Hs.
  pose proof (mode_store_token s st) as Ht. cbv zeta in Ht.
  set (p := memcpy (Nat.min (String.length s) (16 - 1)) s) in *.
  assert (Hp : tmp_token p = strip_newline p).
  { apply tmp_token_strip. unfold p. now apply memcpy_nul_free. }
  rewrite Hp in Ht.
  assert (Hv : valid_mode (strip_newline p) = valid_mode (strip_newline s)).
  { destruct (Nat.le_gt_cases (String.length s) 15) as [Hle|Hgt].
    - unfold p. rewrite memcpy_all by lia. reflexivity.
    - assert (Hl : String.length p = 15%nat)
        by (unfold p; rewrite memcpy_length; lia).
      pose proof (strip_newline_length p) as H1.
      pose proof (strip_newline_length s) as H2.
      destruct (valid_mode (strip_newline p)) eqn:E1.
      { apply valid_mode_length in E1. lia. }
      destruct (valid_mode (strip_newline s)) eqn:E2.
      { apply valid_mode_length in E2. lia. }
      reflexivity. }
  rewrite Hv in Ht.
  split; intros H; rewrite H in Ht; rewrite Ht; simpl.
  - assert (Heq : strip_newline p = strip_newline s).
    { destruct (Nat.le_gt_cases (String.length s) 15) as [Hle|Hgt].
      - unfold p. rewrite memcpy_all by lia. reflexivity.
      - apply valid_mode_length in H.
        pose proof (strip_newline_length s). lia. }
    rewrite Heq. auto.
  - auto.
Qed.

Lemma mode_store_accepts_tokens_witness :
  mode_store ("ramp" +:+ String LF EmptyString) init = (set_mode "ramp" init, 5) /\
  mode_store "Ramp" init = (set_stats_last_error (-22) init, -22).
Proof.
  split.
  - destruct (mode_store_accepts_tokens ("ramp" +:+ String LF EmptyString) init eq_refl)
      as [H _].
    destruct (H eq_refl) as [H1 _]. exact H1.
  - destruct (mode_store_accepts_tokens "Ramp" init eq_refl) as [_ H].
    destruct (H eq_refl) as [H1 _]. exact H1.
Defined.

End ModeStore.

Section Stores.
Import Driver.

(** ** The numeric setters *)

Lemma threshold_store_commits_any_int buf v st :
  kstrtoint buf = inl v ->
  threshold_mC_store buf st = (set_threshold_mC v st, Z.of_nat (String.length buf)).
Proof. intros H. unfold threshold_mC_store. now rewrite H. Qed.

Lemma sampling_store_commits_any_positive buf v st :
  kstrtouint buf = inl v -> v <> 0 ->
  sampling_ms_store buf st = (set_sampling_ms v st, Z.of_nat (String.length buf)).
Proof.
  intros H Hv. unfold sampling_ms_store. rewrite H.
  now destruct (Z.eqb_spec v 0).
Qed.

(** C2 on this revision: the threshold setter has no range check.  It
    commits 60001 and -20001, which lie outside [-20000, 60000], returns
    the number of bytes written and leaves [stats_last_error] at 0. *)
Theorem threshold_store_out_of_range :
  threshold_mC_store (line "60001") init = (set_threshold_mC 60001 init, 6) /\
  threshold_mC_store (line "-20001") init = (set_threshold_mC (-20001) init, 7) /\
  threshold_mC (fst (threshold_mC_store (line "60001") init)) = 60001 /\
  stats_last_error (fst (threshold_mC_store (line "60001") init)) = 0.
Proof. repeat split; reflexivity. Qed.

(** C3 on this revision: the period setter rejects 0 but has no upper
    bound.  It commits 10001, which lies outside [1, 10000], returns the
    number of bytes written and leaves [stats_last_error] at 0. *)
Theorem sampling_store_out_of_range :
  sampling_ms_store (line "10001") init = (set_sampling_ms 10001 init, 6) /\
  sampling_ms (fst (sampling_ms_store (line "10001") init)) = 10001 /\
  stats_last_error (fst (sampling_ms_store (line "10001") init)) = 0 /\
  sampling_ms_store (line "0") init = (set_stats_last_error (-22) init, -22).
Proof. repeat split; reflexivity. Qed.

(** The range checks of the later revision. *)
Lemma later_threshold_store_range buf v st :
  kstrtoint buf = inl v ->
  (-20000 <= v <= 60000 ->
   DriverPoll.threshold_mC_store buf st
   = (set_threshold_mC v st, Z.of_nat (String.length buf))) /\
  (~ -20000 <= v <= 60000 ->
   DriverPoll.threshold_mC_store buf st
   = (set_stats_last_error (- EINVAL) st, - EINVAL)).
Proof.
  intros H. unfold DriverPoll.threshold_mC_store. rewrite H. cbv zeta.
  unfold DriverPoll.SIMTEMP_THRESHOLD_MC_MIN, DriverPoll.SIMTEMP_THRESHOLD_MC_MAX.
  destruct (Z.ltb_spec v (-20000)); destruct (Z.ltb_spec 60000 v); simpl;
    split; intros; auto; lia.
Qed.

Lemma later_sampling_store_range buf v st :
  kstrtouint buf = inl v ->
  (1 <= v <= 10000 ->
   DriverPoll.sampling_ms_store buf st
   = (set_sampling_ms v st, Z.of_nat (String.length buf))) /\
  (~ 1 <= v <= 10000 ->
   DriverPoll.sampling_ms_store buf st
   = (set_stats_last_error (- EINVAL) st, - EINVAL)).
Proof.
  intros H. unfold DriverPoll.sampling_ms_store. rewrite H. cbv zeta.
  unfold DriverPoll.SIMTEMP_SAMPLING_MS_MIN, DriverPoll.SIMTEMP_SAMPLING_MS_MAX.
  destruct (Z.ltb_spec v 1); destruct (Z.ltb_spec 10000 v); simpl;
    split; intros; auto; lia.
Qed.

End Stores.

Section AlertState.
Import Driver.

(** ** The recorded alert polarity *)

(** The read of this revision does not look at the file it is called on. *)
Lemma simtemp_read_any_file f g count env st :
  simtemp_read f count env st = simtemp_read g count env st.
Proof. reflexivity. Qed.

(** C1 on this revision: [last_alert_state] is one variable for all open
    files.  With the threshold at 44015, file 1 reads 44010 (flags 0x1),
    file 2 reads 44020 and its read moves the recorded polarity from 0 to
    1, counting the edge; file 1 then reads 44030 (flags 0x3): the polarity
    in its own stream changed, but its read counts no edge. *)
Theorem alert_state_shared_by_files :
  let st0 := fst (threshold_mC_store (line "44015") init) in
  let r1 := simtemp_read 1 16 one_tick st0 in
  let r2 := simtemp_read 2 16 one_tick (state_after r1) in
  let r3 := simtemp_read 1 16 one_tick (state_after r2) in
  (return_value r1, return_value r2, return_value r3) = (Some 16, Some 16, Some 16) /\
  record_temp (user_buffer r1) = 44010 /\ record_flags (user_buffer r1) = 1 /\
  record_temp (user_buffer r2) = 44020 /\ record_flags (user_buffer r2) = 3 /\
  record_temp (user_buffer r3) = 44030 /\ record_flags (user_buffer r3) = 3 /\
  last_alert_state (state_after r1) = 0 /\
  last_alert_state (state_after r2) = 1 /\
  stats_alerts (state_after r1) = 0 /\
  stats_alerts (state_after r2) = 1 /\
  stats_alerts (state_after r3) = 1.
Proof. vm_compute. repeat split; reflexivity. Qed.

(** C4 on this revision: the edge accounting runs before the size check
    and the copy.  With the threshold at 44005 and the recorded polarity 0,
    a read into an 8-byte buffer fails with [-EINVAL] and a read whose copy
    fails returns [-EFAULT]; both leave the recorded polarity at 1 and the
    alert counted. *)
Theorem failed_read_updates_alert_state :
  let st0 := fst (threshold_mC_store (line "44005") init) in
  let small := simtemp_read 0 8 one_tick st0 in
  let fault := simtemp_read 0 16 (mkEnv [Happens (Tick 0)] [] 0 16) st0 in
  last_alert_state st0 = 0 /\ stats_alerts st0 = 0 /\
  return_value small = Some (- EINVAL) /\
  last_alert_state (state_after small) = 1 /\
  stats_alerts (state_after small) = 1 /\
  return_value fault = Some (- EFAULT) /\
  last_alert_state (state_after fault) = 1 /\
  stats_alerts (state_after fault) = 1.
Proof. vm_compute. repeat split; reflexivity. Qed.

End AlertState.

Section LaterRevision.

(** ** The per-file state of the later revision *)

Lemma later_get_file_state_others alloc_ok file g sys :
  g <> file ->
  DriverPoll.private_data (snd (DriverPoll.simtemp_get_file_state alloc_ok file sys)) !! g
  = DriverPoll.private_data sys !! g.
Proof.
  intros Hg. unfold DriverPoll.simtemp_get_file_state.
  destruct (DriverPoll.private_data sys !! file); [reflexivity|].
  destruct alloc_ok; [|reflexivity]. simpl.
  now rewrite lookup_insert_ne.
Qed.

Lemma later_get_file_state_existing alloc_ok file fs sys :
  DriverPoll.private_data sys !! file = Some fs ->
  DriverPoll.simtemp_get_file_state alloc_ok file sys = (Some fs, sys).
Proof. intros H. unfold DriverPoll.simtemp_get_file_state. now rewrite H. Qed.

(** A read of the later revision that fails leaves the state of a file
    that had one as it was. *)
Lemma later_failed_read_keeps_file_state alloc_ok file count env sys sys' ret user fs :
  DriverPoll.private_data sys !! file = Some fs ->
  DriverPoll.simtemp_read alloc_ok file count env sys = DriverPoll.Returned sys' ret user ->
  ret < 0 ->
  DriverPoll.private_data sys' = DriverPoll.private_data sys.
Proof.
  intros Hf. unfold DriverPoll.simtemp_read.
  rewrite (later_get_file_state_existing _ _ _ _ Hf). cbv zeta.
  destruct (DriverPoll.wait_event_interruptible _ _ _) as [stw|stw|stw].
  - destruct (count <? sizeof_sample)%nat; [intros [= <- <- <-]; reflexivity|].
    destruct (negb _); [intros [= <- <- <-]; reflexivity|].
    intros [= <- <- <-]. simpl. lia.
  - intros [= <- <- <-]. reflexivity.
  - discriminate.
Qed.

(** A read of the later revision on one file leaves the state of every
    other file as it was. *)
Lemma later_read_keeps_other_files alloc_ok file count env sys sys' ret user g :
  g <> file ->
  DriverPoll.simtemp_read alloc_ok file count env sys = DriverPoll.Returned sys' ret user ->
  DriverPoll.private_data sys' !! g = DriverPoll.private_data sys !! g.
Proof.
  intros Hg. unfold DriverPoll.simtemp_read.
  pose proof (later_get_file_state_others alloc_ok file g sys Hg) as Ho.
  destruct (DriverPoll.simtemp_get_file_state alloc_ok file sys) as [[fs|] sys1];
    simpl in Ho; [|intros [= <- <- <-]; exact Ho].
  cbv zeta.
  destruct (DriverPoll.wait_event_interruptible _ _ _) as [stw|stw|stw].
  - destruct (count <? sizeof_sample)%nat; [intros [= <- <- <-]; exact Ho|].
    destruct (negb _); [intros [= <- <- <-]; exact Ho|].
    intros [= <- <- <-].
    unfold DriverPoll.simtemp_update_file_state, DriverPoll.simtemp_get_file_state.
    simpl.
    destruct (DriverPoll.private_data sys1 !! file) eqn:E; simpl.
    + now rewrite lookup_insert_ne.
    + destruct alloc_ok; simpl; [|exact Ho].
      now rewrite !lookup_insert_ne.
  - intros [= <- <- <-]. exact Ho.
  - discriminate.
Qed.

End LaterRevision.

Section Scenarios.
Import Driver.

(** ** The parsers and the driver on concrete inputs *)

Example kstrtoint_decimal :
  kstrtoint (line "44015") = inl 44015 /\
  kstrtoint "-20001" = inl (-20001) /\
  kstrtoint "+7" = inl 7 /\
  kstrtoint "-2147483648" = inl (-2147483648).
Proof. repeat split; reflexivity. Qed.

Example kstrtoint_rejects :
  kstrtoint "2147483648" = inr (- ERANGE) /\
  kstrtoint "12a" = inr (- EINVAL) /\
  kstrtoint EmptyString = inr (- EINVAL) /\
  kstrtoint (line (line "5")) = inr (- EINVAL).
Proof. repeat split; reflexivity. Qed.

Example kstrtouint_decimal :
  kstrtouint "4294967295" = inl 4294967295 /\
  kstrtouint "4294967296" = inr (- ERANGE) /\
  kstrtouint "-1" = inr (- EINVAL) /\
  kstrtouint (line "0") = inl 0.
Proof. repeat split; reflexivity. Qed.

(** Three reads of the probed driver in normal mode: 44010, 44020, 44030,
    flags 0x1 each, three updates and no alert. *)
Example normal_cadence :
  let r1 := simtemp_read 0 16 one_tick init in
  let r2 := simtemp_read 0 16 one_tick (state_after r1) in
  let r3 := simtemp_read 0 16 one_tick (state_after r2) in
  (return_value r1, return_value r2, return_value r3) = (Some 16, Some 16, Some 16) /\
  (record_temp (user_buffer r1), record_temp (user_buffer r2),
   record_temp (user_buffer r3)) = (44010, 44020, 44030) /\
  (record_flags (user_buffer r1), record_flags (user_buffer r2),
   record_flags (user_buffer r3)) = (1, 1, 1) /\
  stats_updates (state_after r3) = 3 /\ stats_alerts (state_after r3) = 0.
Proof. vm_compute. repeat split; reflexivity. Qed.

(** With the threshold at 44015, two reads: 44010 with flags 0x1, then
    44020 with flags 0x3, and one alert counted. *)
Example threshold_edge :
  let st0 := fst (threshold_mC_store (line "44015") init) in
  let r1 := simtemp_read 0 16 one_tick st0 in
  let r2 := simtemp_read 0 16 one_tick (state_after r1) in
  (record_temp (user_buffer r1), record_flags (user_buffer r1)) = (44010, 1) /\
  (record_temp (user_buffer r2), record_flags (user_buffer r2)) = (44020, 3) /\
  stats_alerts (state_after r2) = 1.
Proof. vm_compute. repeat split; reflexivity. Qed.

(** One read in normal mode, then two in ramp mode: 44010, 44060, 44110. *)
Example mode_switch :
  let r1 := simtemp_read 0 16 one_tick init in
  let r2 := simtemp_read 0 16 one_tick
              (fst (mode_store (line "ramp") (state_after r1))) in
  let r3 := simtemp_read 0 16 one_tick (state_after r2) in
  (record_temp (user_buffer r1), record_temp (user_buffer r2),
   record_temp (user_buffer r3)) = (44010, 44060, 44110) /\
  stats_updates (state_after r3) = 3.
Proof. vm_compute. repeat split; reflexivity. Qed.

(** A reader for whom no tick comes stays asleep. *)
Example read_without_tick_sleeps :
  simtemp_read 0 16 (mkEnv [] [] 0 0) init = Sleeping init.
Proof. reflexivity. Qed.

(** The bytes written after a NUL byte are not part of the string
    [mode_store] compares: it reads them as the text before the NUL. *)
Example mode_store_stops_at_nul :
  mode_store ("ramp" +:+ String NUL "xyz") init = (set_mode "ramp" init, 8).
Proof. reflexivity. Qed.

(** The later revision cuts the text at its first newline, wherever it
    stands, and so takes a token that is followed by more lines. *)
Example later_mode_store_first_newline :
  DriverPoll.mode_store (line "ramp" +:+ "xyz") init = (set_mode "ramp" init, 8) /\
  mode_store (line "ramp" +:+ "xyz") init = (set_stats_last_error (-22) init, -22).
Proof. split; reflexivity. Qed.

(** The later revision with the threshold at 44015 and reads on file 1,
    file 2 and file 1 again, one tick before each: the read on file 2
    leaves the state of file 1 alone, and [simtemp_poll] reports the
    pending edge to file 1; the read on file 1 still counts no edge,
    because it compares with the polarity at its own entry and not with
    the polarity recorded for the file. *)
Example later_read_compares_with_entry_polarity :
  let sys0 := DriverPoll.mkSystem
                (fst (DriverPoll.threshold_mC_store (line "44015") init)) ∅ in
  let r1 := DriverPoll.simtemp_read true 1 16 one_tick sys0 in
  let r2 := DriverPoll.simtemp_read true 2 16 one_tick (DriverPoll.state_after r1) in
  let r3 := DriverPoll.simtemp_read true 1 16 one_tick (DriverPoll.state_after r2) in
  DriverPoll.private_data (DriverPoll.state_after r1) !! 1%nat
    = Some (DriverPoll.mkFile 1 0) /\
  DriverPoll.private_data (DriverPoll.state_after r2) !! 1%nat
    = Some (DriverPoll.mkFile 1 0) /\
  fst (DriverPoll.simtemp_poll true 1 (DriverPoll.state_after r2)) = 67 /\
  record_flags (DriverPoll.user_buffer r1) = 1 /\
  record_flags (DriverPoll.user_buffer r3) = 3 /\
  stats_alerts (DriverPoll.engine (DriverPoll.state_after r2)) = 1 /\
  stats_alerts (DriverPoll.engine (DriverPoll.state_after r3)) = 1.
Proof. vm_compute. repeat split; reflexivity. Qed.

End Scenarios.

(** * Further properties of the driver *)

Section Decimal.

(** ** Decimal text: what is printed is parsed back *)

Lemma append_nil_r s : s +:+ EmptyString = s.
Proof. induction s as [|c r IH]; [reflexivity|]. rewrite append_cons. now rewrite IH. Qed.

Lemma append_assoc_str s t u : (s +:+ t) +:+ u = s +:+ (t +:+ u).
Proof.
  induction s as [|c r IH]; [reflexivity|]. rewrite !append_cons. now rewrite IH.
Qed.

Lemma append_length s t :
  String.length (s +:+ t) = (String.length s + String.length t)%nat.
Proof.
  induction s as [|c r IH]; [reflexivity|]. rewrite append_cons. simpl. now rewrite IH.
Qed.

Lemma nul_free_append s t :
  nul_free s = true -> nul_free t = true -> nul_free (s +:+ t) = true.
Proof.
  induction s as [|c r IH]; [auto|]. rewrite append_cons. simpl.
  destruct (Ascii.eqb c NUL); simpl; [discriminate|]. auto.
Qed.

Lemma digit_of_digit_char k : 0 <= k <= 9 -> digit_of (digit_char k) = Some k.
Proof.
  intros H.
  assert (k = 0 \/ k = 1 \/ k = 2 \/ k = 3 \/ k = 4 \/ k = 5 \/ k = 6 \/
          k = 7 \/ k = 8 \/ k = 9) as Hk by lia.
  repeat destruct Hk as [-> | Hk]; try subst k; reflexivity.
Qed.

Lemma digit_of_range c d : digit_of c = Some d -> 0 <= d <= 9.
Proof.
  unfold digit_of. cbv zeta.
  destruct (Z.leb_spec 48 (Z.of_nat (nat_of_ascii c)));
    destruct (Z.leb_spec (Z.of_nat (nat_of_ascii c)) 57); simpl; try discriminate.
  intros [= <-]. lia.
Qed.

Lemma all_digits_nul_free s : all_digits s = true -> nul_free s = true.
Proof.
  induction s as [|c r IH]; [reflexivity|]. simpl.
  destruct (digit_of c) eqn:E; [|discriminate].
  intros H. rewrite (IH H), andb_true_r.
  destruct (Ascii.eqb_spec c NUL) as [->|]; [discriminate E | reflexivity].
Qed.

Lemma all_digits_append s t :
  all_digits s = true -> all_digits t = true -> all_digits (s +:+ t) = true.
Proof.
  induction s as [|c r IH]; [auto|]. rewrite append_cons. simpl.
  destruct (digit_of c); [auto | discriminate].
Qed.

Lemma digits_value_append s t acc :
  all_digits s = true ->
  digits_value (s +:+ t) acc = digits_value t (digits_value s acc).
Proof.
  revert acc. induction s as [|c r IH]; intros acc; [reflexivity|].
  rewrite append_cons. simpl. destruct (digit_of c); [apply IH | discriminate].
Qed.

(** [_parse_integer] reads a run of digits and stops at what follows it. *)
Lemma parse_integer_digits s rest res rv :
  all_digits s = true ->
  match rest with
  | EmptyString => True
  | String c _ => digit_of c = None
  end ->
  _parse_integer (s +:+ rest) res rv
  = (digits_value s res, (rv + String.length s)%nat, rest).
Proof.
  intros Hs Hrest. revert res rv Hs.
  induction s as [|c r IH]; intros res rv Hs.
  - simpl. rewrite Nat.add_0_r. destruct rest as [|c r]; [reflexivity|].
    simpl. now rewrite Hrest.
  - rewrite append_cons. simpl in *.
    destruct (digit_of c); [|discriminate].
    rewrite IH by exact Hs. f_equal. f_equal. lia.
Qed.

(** The digits [put_dec] produces. *)
Lemma put_dec_digits fuel n acc :
  (0 < fuel)%nat ->
  0 <= n < 10 ^ Z.of_nat fuel ->
  exists d,
    put_dec fuel n acc = d +:+ acc /\
    all_digits d = true /\
    (0 < String.length d)%nat /\
    forall a, digits_value d a = a * 10 ^ Z.of_nat (String.length d) + n.
Proof.
  revert n acc. induction fuel as [|fuel IH]; intros n acc Hf Hn; [lia|].
  cbn [put_dec]. cbv zeta.
  assert (Hm : 0 <= n mod 10 <= 9) by (pose proof (Z.mod_pos_bound n 10); lia).
  pose proof (digit_of_digit_char _ Hm) as Hd.
  destruct (Z.eqb_spec (n / 10) 0) as [Hz|Hz].
  - exists (String (digit_char (n mod 10)) EmptyString).
    split; [reflexivity|]. split; [simpl; now rewrite Hd|].
    split; [simpl; lia|].
    intros a. simpl. rewrite Hd.
    pose proof (Z.div_mod n 10). lia.
  - assert (Hq : 0 <= n / 10 < 10 ^ Z.of_nat fuel).
    { rewrite Nat2Z.inj_succ, Z.pow_succ_r in Hn by lia.
      split; [apply Z.div_pos; lia | apply Z.div_lt_upper_bound; lia]. }
    assert (Hf' : (0 < fuel)%nat).
    { destruct fuel; [|lia]. change (10 ^ Z.of_nat 0) with 1 in Hq. lia. }
    destruct (IH (n / 10) (String (digit_char (n mod 10)) acc) Hf' Hq)
      as (d & Heq & Hall & Hlen & Hval).
    exists (d +:+ String (digit_char (n mod 10)) EmptyString).
    split; [rewrite Heq, append_assoc_str; reflexivity|].
    split; [apply all_digits_append; [exact Hall | simpl; now rewrite Hd]|].
    split; [rewrite append_length; simpl; lia|].
    intros a. rewrite digits_value_append by exact Hall. simpl. rewrite Hd, Hval.
    rewrite append_length. simpl.
    replace (Z.of_nat (String.length d + 1)) with (Z.succ (Z.of_nat (String.length d))) by lia.
    rewrite Z.pow_succ_r by lia.
    pose proof (Z.div_mod n 10). lia.
Qed.

Lemma digit_first_not_sign c r (A B : Z + Z) (f g : string -> Z + Z) :
  digit_of c <> None ->
  match String c r with
  | String "+" r' => f r'
  | _ => A
  end = A /\
  match String c r with
  | String "-" r' => g r'
  | _ => B
  end = B.
Proof.
  intros H.
  destruct c as [[] [] [] [] [] [] [] []];
    try (exfalso; apply H; reflexivity); split; reflexivity.
Qed.

(** The unsigned parser on a printed number followed by a newline. *)
Lemma kstrtoull_fmt_u n :
  0 <= n < 2 ^ 64 ->
  kstrtoull (fmt_u n +:+ String LF EmptyString) = inl n /\
  _kstrtoull (fmt_u n +:+ String LF EmptyString) = inl n /\
  nul_free (fmt_u n +:+ String LF EmptyString) = true /\
  exists c r, fmt_u n = String c r /\ digit_of c <> None.
Proof.
  intros Hn. unfold fmt_u.
  destruct (put_dec_digits 20 n EmptyString) as (d & Heq & Hall & Hlen & Hval).
  { lia. }
  { change (10 ^ Z.of_nat 20) with 100000000000000000000. lia. }
  rewrite Heq, append_nil_r.
  assert (Hnf : nul_free (d +:+ String LF EmptyString) = true).
  { apply nul_free_append; [now apply all_digits_nul_free | reflexivity]. }
  assert (Hu : _kstrtoull (d +:+ String LF EmptyString) = inl n).
  { unfold _kstrtoull. rewrite c_str_nul_free by exact Hnf.
    rewrite parse_integer_digits by (auto; reflexivity).
    rewrite Hval, Z.mul_0_l, Z.add_0_l. cbn [Nat.add].
    destruct (Z.ltb_spec ULLONG_MAX n) as [Hlt|_];
      [unfold ULLONG_MAX in Hlt; lia|].
    destruct (String.length d); [lia|]. reflexivity. }
  destruct d as [|c r]; [simpl in Hlen; lia|].
  assert (Hc : digit_of c <> None).
  { simpl in Hall. destruct (digit_of c); [discriminate | discriminate Hall]. }
  split; [|split; [exact Hu|split; [exact Hnf|exists c, r; auto]]].
  unfold kstrtoull. rewrite c_str_nul_free by exact Hnf.
  rewrite append_cons in *.
  destruct (digit_first_not_sign c (r +:+ String LF EmptyString)
              (_kstrtoull (String c (r +:+ String LF EmptyString)))
              (inl 0) _kstrtoull _kstrtoull Hc) as [-> _].
  exact Hu.
Qed.

(** [kstrtouint] reads back what [%u] prints for an [unsigned int]. *)
Lemma kstrtouint_fmt_u n :
  0 <= n < 2 ^ 32 ->
  kstrtouint (fmt_u n +:+ String LF EmptyString) = inl n.
Proof.
  intros Hn. unfold kstrtouint.
  destruct (kstrtoull_fmt_u n) as (-> & _); [lia|].
  rewrite u32_small by exact Hn. now rewrite Z.eqb_refl.
Qed.

(** [kstrtoint] reads back what [%d] prints for an [int]. *)
Lemma kstrtoint_fmt_d v :
  - 2 ^ 31 <= v < 2 ^ 31 ->
  kstrtoint (fmt_d v +:+ String LF EmptyString) = inl v.
Proof.
  intros Hv.
  assert (Hs : s32 v = v) by (apply s32_small; exact Hv).
  unfold kstrtoint, kstrtoll, fmt_d.
  destruct (Z.ltb_spec v 0) as [Hneg|Hpos].
  - destruct (kstrtoull_fmt_u (- v)) as (_ & Hu & Hnf & _); [lia|].
    rewrite append_cons.
    assert (Hnf' : nul_free (String "-" (fmt_u (- v) +:+ String LF EmptyString)) = true)
      by (simpl; exact Hnf).
    rewrite c_str_nul_free by exact Hnf'.
    rewrite Hu.
    destruct (Z.ltb_spec (2 ^ 63) (- v)); [lia|].
    rewrite Z.opp_involutive, Hs. now rewrite Z.eqb_refl.
  - destruct (kstrtoull_fmt_u v) as (Hk & _ & Hnf & (c & r & Hcr & Hc)); [lia|].
    rewrite c_str_nul_free by exact Hnf.
    rewrite Hcr in *. rewrite append_cons.
    destruct (digit_first_not_sign c (r +:+ String LF EmptyString)
                (inl 0)
                (match kstrtoull (String c (r +:+ String LF EmptyString)) with
                 | inl tmp => if 2 ^ 63 <=? tmp then inr (- ERANGE) else inl tmp
                 | inr e => inr e
                 end)
                _kstrtoull
                (fun r => match _kstrtoull r with
                          | inl tmp => if 2 ^ 63 <? tmp then inr (- ERANGE) else inl (- tmp)
                          | inr e => inr e
                          end) Hc) as [_ ->].
    rewrite append_cons in Hk. rewrite Hk.
    destruct (Z.leb_spec (2 ^ 63) v); [lia|].
    rewrite Hs. now rewrite Z.eqb_refl.
Qed.

End Decimal.

Section Invariants.
Import Driver.

(** ** What the driver keeps true of its variables *)

Lemma kstrtouint_range buf v : kstrtouint buf = inl v -> uint_range v.
Proof.
  unfold kstrtouint. destruct (kstrtoull buf) as [tmp|e]; [|discriminate].
  destruct (Z.eqb_spec tmp (u32 tmp)) as [Heq|]; [|discriminate].
  intros [= <-]. rewrite Heq. apply u32_range.
Qed.

Lemma kstrtoint_range buf v : kstrtoint buf = inl v -> int_range v.
Proof.
  unfold kstrtoint. destruct (kstrtoll buf) as [tmp|e]; [|discriminate].
  destruct (Z.eqb_spec tmp (s32 tmp)) as [Heq|]; [|discriminate].
  intros [= <-]. rewrite Heq. apply s32_range.
Qed.

Lemma valid_mode_cases m :
  valid_mode m = true -> m = "normal" \/ m = "noisy" \/ m = "ramp".
Proof.
  unfold valid_mode. intros H.
  apply orb_prop in H as [H|H]; [apply orb_prop in H as [H|H]|];
    apply String.eqb_eq in H; auto.
Qed.

Lemma well_formed_init : well_formed init.
Proof. wf_solve. Qed.

Lemma well_formed_tick rnd st :
  well_formed st -> well_formed (simtemp_update_temp rnd st).
Proof.
  intros (Hs & Ht & Hm & Hu & Ha & He & Hc & Hq & Hd & Hhi & Hlo & Hl).
  assert (Hu' : uint_range (u32 (stats_updates st + 1))) by apply u32_range.
  assert (Hq' : uint_range (u32 (simtemp_sample_seq st + 1))) by apply u32_range.
  unfold uint_range, int_range in Hu', Hq', Hu, Ha, Hq, Ht.
  destruct (valid_mode_cases _ Hm) as [Hmode|[Hmode|Hmode]].
  - rewrite tick_normal by exact Hmode.
    unfold well_formed, uint_range, int_range, simtemp_mode_normal. simpl.
    rewrite s32_small by (unfold int_range; lia).
    destruct (Z.ltb_spec 46000 (simtemp_current_mC st + 10)); simpl;
      repeat split; auto; try lia.
  - rewrite tick_noisy by exact Hmode.
    unfold well_formed, uint_range, int_range, simtemp_mode_noisy. cbv zeta.
    pose proof (noise_bounds rnd) as Hn.
    set (noise := s32 (u32 (u32 rnd mod 200 - 100))) in *. simpl.
    rewrite s32_small by (unfold int_range; lia).
    destruct (Z.ltb_spec 46000 (simtemp_current_mC st + noise)); simpl.
    + destruct (Z.ltb_spec 46000 44000); simpl; repeat split; auto; try lia.
    + destruct (Z.ltb_spec (simtemp_current_mC st + noise) 44000); simpl;
        repeat split; auto; try lia.
  - rewrite tick_ramp by exact Hmode.
    unfold well_formed, uint_range, int_range, simtemp_mode_ramp. cbv zeta. simpl.
    assert (Hmul : s32 (direction st * 50) = direction st * 50)
      by (apply s32_small; unfold int_range; lia).
    rewrite Hmul. rewrite s32_small by (unfold int_range; lia).
    destruct (Z.leb_spec 46000 (simtemp_current_mC st + direction st * 50)); simpl;
      destruct (Z.leb_spec (simtemp_current_mC st + direction st * 50) 44000); simpl;
      repeat split; auto; try lia.
Qed.

Lemma well_formed_sampling_ms_store buf st :
  well_formed st -> well_formed (fst (sampling_ms_store buf st)).
Proof.
  intros (Hs & Ht & Hm & Hu & Ha & He & Hc & Hq & Hd & Hhi & Hlo & Hl).
  destruct (sampling_ms_store_cases buf st) as [(v & Hk & Hv & ->)|[_ ->]]; simpl.
  - apply kstrtouint_range in Hk. unfold uint_range in Hk.
    wf_solve.
  - wf_solve.
Qed.

Lemma well_formed_threshold_mC_store buf st :
  well_formed st -> well_formed (fst (threshold_mC_store buf st)).
Proof.
  intros (Hs & Ht & Hm & Hu & Ha & He & Hc & Hq & Hd & Hhi & Hlo & Hl).
  destruct (threshold_mC_store_cases buf st) as [(v & Hk & ->)|[_ ->]]; simpl.
  - apply kstrtoint_range in Hk. wf_solve.
  - wf_solve.
Qed.

Lemma well_formed_mode_store buf st :
  well_formed st -> well_formed (fst (mode_store buf st)).
Proof.
  intros (Hs & Ht & Hm & Hu & Ha & He & Hc & Hq & Hd & Hhi & Hlo & Hl).
  pose proof (mode_store_token buf st) as Hstore. cbv zeta in Hstore.
  rewrite Hstore.
  destruct (valid_mode (tmp_token _)) eqn:Hv; simpl.
  - wf_solve.
  - wf_solve.
Qed.

Lemma well_formed_run_env_op o st :
  well_formed st -> well_formed (run_env_op o st).
Proof.
  destruct o; simpl;
    auto using well_formed_tick, well_formed_sampling_ms_store,
      well_formed_threshold_mC_store, well_formed_mode_store.
Qed.

Lemma well_formed_read_locked now st :
  well_formed st -> well_formed (snd (read_locked now st)).
Proof.
  intros (Hs & Ht & Hm & Hu & Ha & He & Hc & Hq & Hd & Hhi & Hlo & Hl).
  rewrite read_locked_cases. cbv zeta.
  destruct (negb _); [|wf_solve].
  pose proof (u32_range (stats_alerts st + 1)) as Hr.
  wf_solve.
  destruct (threshold_mC st <=? simtemp_current_mC st); auto.
Qed.

Lemma well_formed_set_last_error e st :
  last_error_value e -> well_formed st -> well_formed (set_stats_last_error e st).
Proof.
  intros Hev (Hs & Ht & Hm & Hu & Ha & He & Hc & Hq & Hd & Hhi & Hlo & Hl).
  wf_solve.
Qed.

(** An invariant of the environment's operations holds wherever a wait
    ends. *)
Lemma wait_invariant (P : state -> Prop) :
  (forall o st, P st -> P (run_env_op o st)) ->
  forall prev evs st,
    P st -> P (outcome_state (wait_event_interruptible prev evs st)).
Proof.
  intros Hop prev evs.
  induction evs as [|ev evs IH]; intros st H; simpl.
  - destruct (negb _); exact H.
  - destruct (negb _); [exact H|].
    destruct ev as [o|]; [|exact H]. apply IH, Hop, H.
Qed.

Lemma run_env_ops_invariant (P : state -> Prop) :
  (forall o st, P st -> P (run_env_op o st)) ->
  forall os st, P st -> P (run_env_ops os st).
Proof.
  intros Hop os. unfold run_env_ops.
  induction os as [|o os IH]; intros st H; simpl; [exact H|]. apply IH, Hop, H.
Qed.

Lemma well_formed_simtemp_read file count env st :
  well_formed st -> well_formed (state_after (simtemp_read file count env st)).
Proof.
  intros H. unfold simtemp_read. cbv zeta.
  pose proof (wait_invariant well_formed well_formed_run_env_op
                (simtemp_sample_seq st) (wait_events env) st H) as Hw.
  destruct (wait_event_interruptible _ _ _) as [stw|stw|stw]; simpl in Hw.
  - pose proof (run_env_ops_invariant well_formed well_formed_run_env_op
                  (late_ops env) stw Hw) as Hl.
    pose proof (well_formed_read_locked (ktime_ns env) _ Hl) as Hm.
    destruct (read_locked _ _) as [sample stm]. simpl in Hm.
    destruct (count <? sizeof_sample)%nat.
    { apply well_formed_set_last_error; [right; left; reflexivity | exact Hm]. }
    destruct (negb _); [|exact Hm].
    apply well_formed_set_last_error; [right; right; left; reflexivity | exact Hm].
  - apply well_formed_set_last_error; [right; right; right; reflexivity | exact Hw].
  - exact Hw.
Qed.

Lemma well_formed_run ops : well_formed (run ops init).
Proof.
  assert (H : forall st, well_formed st -> well_formed (run ops st)).
  { unfold run. induction ops as [|o ops IH]; intros st Hst; simpl; [exact Hst|].
    apply IH. destruct o as [e|file count env]; simpl.
    - now apply well_formed_run_env_op.
    - now apply well_formed_simtemp_read. }
  apply H, well_formed_init.
Qed.

End Invariants.

Section ReachableStates.
Import Driver.

(** ** Every state the driver can reach *)

(** X2: whatever the modes are switched to and whenever, the reading stays
    within [43950, 46050]; both ends are reached, by a switch to ramp mode
    at 46000 with the ramp rising and at 44000 with the ramp falling. *)
Theorem reading_range_over_all_runs :
  (forall ops : list op,
     43950 <= simtemp_current_mC (run ops init) <= 46050) /\
  simtemp_current_mC (run run_to_46050 init) = 46050 /\
  simtemp_current_mC (run run_to_43950 init) = 43950.
Proof.
  split; [|split; vm_compute; reflexivity].
  intros ops. destruct (well_formed_run ops) as (_ & _ & _ & _ & _ & _ & H & _).
  exact H.
Qed.

(** X3: after any run the period is at least 1 (the timer is never re-armed
    with no delay), the threshold is an [int], [stats_last_error] is 0 or
    one of [-EINVAL], [-EFAULT], [-ERESTARTSYS], and the recorded polarity
    is 0 or 1. *)
Theorem configuration_over_all_runs (ops : list op) :
  1 <= sampling_ms (run ops init) < 2 ^ 32 /\
  - 2 ^ 31 <= threshold_mC (run ops init) < 2 ^ 31 /\
  (stats_last_error (run ops init) = 0 \/
   stats_last_error (run ops init) = - EINVAL \/
   stats_last_error (run ops init) = - EFAULT \/
   stats_last_error (run ops init) = - ERESTARTSYS) /\
  (last_alert_state (run ops init) = 0 \/ last_alert_state (run ops init) = 1).
Proof.
  destruct (well_formed_run ops) as (Hs & Ht & _ & _ & _ & He & _ & _ & _ & _ & _ & Hl).
  auto.
Qed.

End ReachableStates.

Section RoundTrips.
Import Driver.

(** ** Configuration round trips *)




(** X4: writing a value and reading the attribute back gives the text that
    was written: for every [int] on [threshold_mC], for every
    [unsigned int] but 0 on [sampling_ms], for the three tokens on [mode]. *)
Theorem store_then_show :
  (forall v st,
     - 2 ^ 31 <= v < 2 ^ 31 ->
     snd (threshold_mC_store (line (fmt_d v)) st)
       = Z.of_nat (String.length (line (fmt_d v))) /\
     threshold_mC (fst (threshold_mC_store (line (fmt_d v)) st)) = v /\
     threshold_mC_show (fst (threshold_mC_store (line (fmt_d v)) st))
       = line (fmt_d v)) /\
  (forall v st,
     1 <= v < 2 ^ 32 ->
     snd (sampling_ms_store (line (fmt_u v)) st)
       = Z.of_nat (String.length (line (fmt_u v))) /\
     sampling_ms (fst (sampling_ms_store (line (fmt_u v)) st)) = v /\
     sampling_ms_show (fst (sampling_ms_store (line (fmt_u v)) st))
       = line (fmt_u v)) /\
  (forall m st,
     m = "normal" \/ m = "noisy" \/ m = "ramp" ->
     snd (mode_store (line m) st) = Z.of_nat (String.length (line m)) /\
     mode (fst (mode_store (line m) st)) = m /\
     mode_show (fst (mode_store (line m) st)) = line m).
Proof.
  split; [|split].
  - intros v st Hv. unfold line.
    rewrite (threshold_store_commits_any_int _ v) by (now apply kstrtoint_fmt_d).
    repeat split.
  - intros v st Hv. unfold line.
    rewrite (sampling_store_commits_any_positive _ v)
      by (try apply kstrtouint_fmt_u; lia).
    repeat split.
  - intros m st [-> | [-> | ->]]; repeat split.
Qed.

Lemma store_then_show_witness :
  threshold_mC_show (fst (threshold_mC_store (line (fmt_d (-20001))) init))
    = line "-20001" /\
  sampling_ms_show (fst (sampling_ms_store (line (fmt_u 250)) init)) = line "250" /\
  mode_show (fst (mode_store (line "noisy") init)) = line "noisy".
Proof.
  destruct store_then_show as (Ht & Hs & Hm).
  split; [|split].
  - apply (Ht (-20001) init). lia.
  - apply (Hs 250 init). lia.
  - apply (Hm "noisy" init). auto.
Defined.



End RoundTrips.

Section CliSetters.
Import Driver.

(** ** The tool's setters against the driver *)

(** X6: against the driver of [unnamed/part_001] the threshold setter of the
    tool succeeds for every [int] and the period setter for every
    [unsigned int] but 0.  Against the later revision each succeeds exactly
    on the configured range, [-20000, 60000] and [1, 10000]; outside it
    the setter returns false and the driver is left with its old value and
    [-EINVAL] in [stats_last_error]. *)
Theorem cli_setters_accepted :
  (forall v st,
     - 2 ^ 31 <= v < 2 ^ 31 ->
     Cli.set_threshold_mC threshold_mC_store v st = (set_threshold_mC v st, true) /\
     Cli.set_threshold_mC DriverPoll.threshold_mC_store v st
     = if (-20000 <=? v) && (v <=? 60000)
       then (set_threshold_mC v st, true)
       else (set_stats_last_error (- EINVAL) st, false)) /\
  (forall v st,
     0 <= v < 2 ^ 32 ->
     Cli.set_sampling_period_ms sampling_ms_store v st
     = (if v =? 0
        then (set_stats_last_error (- EINVAL) st, false)
        else (set_sampling_ms v st, true)) /\
     Cli.set_sampling_period_ms DriverPoll.sampling_ms_store v st
     = if (1 <=? v) && (v <=? 10000)
       then (set_sampling_ms v st, true)
       else (set_stats_last_error (- EINVAL) st, false)).
Proof.
  split.
  - intros v st Hv. pose proof (kstrtoint_fmt_d v Hv) as Hk.
    unfold Cli.set_threshold_mC. split.
    + rewrite (threshold_store_commits_any_int _ v) by exact Hk.
      f_equal. apply Z.leb_le. lia.
    + destruct (later_threshold_store_range _ v st Hk) as [Hin Hout].
      destruct (Z.leb_spec (-20000) v); destruct (Z.leb_spec v 60000); cbn [andb];
        try (rewrite Hout by lia; reflexivity).
      rewrite Hin by lia. f_equal. apply Z.leb_le. lia.
  - intros v st Hv. pose proof (kstrtouint_fmt_u v Hv) as Hk.
    unfold Cli.set_sampling_period_ms. split.
    + destruct (Z.eqb_spec v 0) as [->|Hne]; [reflexivity|].
      rewrite (sampling_store_commits_any_positive _ v) by (try exact Hk; lia).
      f_equal. apply Z.leb_le. lia.
    + destruct (later_sampling_store_range _ v st Hk) as [Hin Hout].
      destruct (Z.leb_spec 1 v); destruct (Z.leb_spec v 10000); cbn [andb];
        try (rewrite Hout by lia; reflexivity).
      rewrite Hin by lia. f_equal. apply Z.leb_le. lia.
Qed.

Lemma cli_setters_accepted_witness :
  Cli.set_threshold_mC threshold_mC_store (-20001) init
    = (set_threshold_mC (-20001) init, true) /\
  Cli.set_threshold_mC DriverPoll.threshold_mC_store (-20001) init
    = (set_stats_last_error (- EINVAL) init, false) /\
  Cli.set_sampling_period_ms DriverPoll.sampling_ms_store 10000 init
    = (set_sampling_ms 10000 init, true).
Proof.
  destruct cli_setters_accepted as (Ht & Hs).
  destruct (Ht (-20001) init ltac:(lia)) as [H1 H2].
  destruct (Hs 10000 init ltac:(lia)) as [_ H3].
  split; [exact H1|]. split; [exact H2 | exact H3].
Defined.

End CliSetters.

Section Waiting.
Import Driver.

(** ** The wait of a read *)

Lemma bump_changes x : u32 (x + 1) <> x.
Proof.
  intros H. pose proof (u32_range (x + 1)) as Hr. rewrite H in Hr.
  unfold uint_range in Hr. unfold u32 in H.
  destruct (Z.eq_dec x (2 ^ 32 - 1)) as [->|Hx].
  - change ((2 ^ 32 - 1 + 1) mod 2 ^ 32) with 0 in H. lia.
  - rewrite Z.mod_small in H by lia. lia.
Qed.

Lemma same_engine_refl st : same_engine st st.
Proof. unfold same_engine. auto 10. Qed.

Lemma same_engine_store o st :
  is_tick o = false -> same_engine st (run_env_op o st).
Proof.
  destruct o as [rnd|buf|buf|buf]; simpl; [discriminate| | |]; intros _.
  - destruct (sampling_ms_store_cases buf st) as [(v & _ & _ & ->)|[_ ->]];
      unfold same_engine; simpl; auto 10.
  - destruct (threshold_mC_store_cases buf st) as [(v & _ & ->)|[_ ->]];
      unfold same_engine; simpl; auto 10.
  - destruct (mode_store_cases buf st) as [(m & ->)| ->];
      unfold same_engine; simpl; auto 10.
Qed.

Lemma same_engine_trans st1 st2 st3 :
  same_engine st1 st2 -> same_engine st2 st3 -> same_engine st1 st3.
Proof.
  unfold same_engine.
  intros (-> & -> & -> & -> & -> & ->) (-> & -> & -> & -> & -> & ->). auto 10.
Qed.
















End Waiting.

Section LaterModeStore.
Import Driver.

(** ** The mode store of the later revision *)

Lemma strchr_cut s :
  c_str (match DriverPoll.strchr LF s with
         | Some k => store_char k NUL s
         | None => s
         end) = first_line s.
Proof.
  induction s as [|x r IH]; [reflexivity|].
  cbn [DriverPoll.strchr first_line].
  destruct (Ascii.eqb x NUL) eqn:Hn; simpl orb.
  - cbn [c_str]. now rewrite Hn.
  - destruct (Ascii.eqb x LF) eqn:Hl.
    + cbn [store_char c_str]. now rewrite Ascii.eqb_refl.
    + destruct (DriverPoll.strchr LF r) as [k|]; cbn [option_map store_char c_str];
        rewrite Hn; f_equal; exact IH.
Qed.

Lemma first_line_strncpy n buf t :
  first_line (DriverPoll.strncpy n buf +:+ String NUL t) = first_line (memcpy n buf).
Proof.
  revert buf. induction n as [|n IH]; intros buf.
  - destruct buf; cbn [DriverPoll.strncpy memcpy]; rewrite append_cons || idtac;
      cbn [first_line]; now rewrite ?Ascii.eqb_refl.
  - destruct buf as [|c r]; cbn [DriverPoll.strncpy memcpy].
    + rewrite append_cons. cbn [first_line]. now rewrite Ascii.eqb_refl.
    + destruct (Ascii.eqb c NUL) eqn:Hn; rewrite append_cons; cbn [first_line].
      * now rewrite Ascii.eqb_refl, Hn.
      * rewrite Hn. simpl orb. destruct (Ascii.eqb c LF); [reflexivity|].
        f_equal. apply IH.
Qed.

Lemma memcpy_min n buf : memcpy (Nat.min (String.length buf) n) buf = memcpy n buf.
Proof.
  revert buf. induction n as [|n IH]; intros [|c r]; cbn [String.length]; auto.
  rewrite <- Nat.succ_min_distr. cbn [memcpy]. f_equal. apply IH.
Qed.

Lemma c_str_strncpy n s :
  (String.length (c_str s) <= n)%nat -> c_str (DriverPoll.strncpy n s) = c_str s.
Proof.
  revert s. induction n as [|n IH]; intros [|c r]; cbn [DriverPoll.strncpy c_str].
  - reflexivity.
  - destruct (Ascii.eqb c NUL); [reflexivity|]. simpl. lia.
  - now rewrite Ascii.eqb_refl.
  - destruct (Ascii.eqb c NUL) eqn:Hn; cbn [c_str].
    + now rewrite Ascii.eqb_refl.
    + rewrite Hn. simpl. intros H. f_equal. apply IH. lia.
Qed.

Lemma c_str_idem s : c_str (c_str s) = c_str s.
Proof.
  induction s as [|c r IH]; [reflexivity|]. cbn [c_str].
  destruct (Ascii.eqb c NUL) eqn:Hn; [reflexivity|]. cbn [c_str]. now rewrite Hn, IH.
Qed.

Lemma strcmp_tokens b :
  negb (strcmp_eq b "normal") && negb (strcmp_eq b "noisy") && negb (strcmp_eq b "ramp")
  = negb (valid_mode (c_str b)).
Proof.
  unfold strcmp_eq, valid_mode.
  change (c_str "normal") with "normal". change (c_str "noisy") with "noisy".
  change (c_str "ramp") with "ramp".
  now rewrite !negb_orb.
Qed.

(** The C string left in [mode_buf] once the first newline is cut. *)
Lemma later_mode_buf buf :
  c_str (match DriverPoll.strchr LF
                 (DriverPoll.strncpy (Nat.min (String.length buf) (16 - 1)) buf
                    +:+ String NUL EmptyString) with
         | Some k =>
             store_char k NUL
               (DriverPoll.strncpy (Nat.min (String.length buf) (16 - 1)) buf
                  +:+ String NUL EmptyString)
         | None =>
             DriverPoll.strncpy (Nat.min (String.length buf) (16 - 1)) buf
               +:+ String NUL EmptyString
         end) = first_line (memcpy 15 buf).
Proof.
  rewrite strchr_cut, first_line_strncpy.
  change (16 - 1)%nat with 15%nat. now rewrite memcpy_min.
Qed.

Lemma later_mode_store_cases buf st :
  (exists m, valid_mode m = true /\
             DriverPoll.mode_store buf st
             = (set_mode m st, Z.of_nat (String.length buf))) \/
  DriverPoll.mode_store buf st = (set_stats_last_error (- EINVAL) st, - EINVAL).
Proof.
  unfold DriverPoll.mode_store. cbv zeta.
  rewrite strcmp_tokens.
  pose proof (later_mode_buf buf) as Hmb.
  set (mb := match DriverPoll.strchr LF _ with Some k => _ | None => _ end) in *.
  destruct (valid_mode (c_str mb)) eqn:Hv; cbn [negb]; [left|right; reflexivity].
  exists (c_str mb). split; [exact Hv|].
  rewrite c_str_strncpy; [reflexivity|].
  apply valid_mode_length in Hv. change (16 - 1)%nat with 15%nat. lia.
Qed.

(** X10: the mode store of the later revision decides on the first line of the
    first 15 bytes written: it is accepted, and stored, exactly when that
    line is one of the three tokens, whatever follows it. *)
Theorem later_mode_store_first_line (buf : string) (st : state) :
  DriverPoll.mode_store buf st
  = if valid_mode (first_line (memcpy 15 buf))
    then (set_mode (first_line (memcpy 15 buf)) st, Z.of_nat (String.length buf))
    else (set_stats_last_error (- EINVAL) st, - EINVAL).
Proof.
  unfold DriverPoll.mode_store. cbv zeta.
  rewrite strcmp_tokens.
  pose proof (later_mode_buf buf) as Hmb.
  set (mb := match DriverPoll.strchr LF _ with Some k => _ | None => _ end) in *.
  rewrite Hmb.
  destruct (valid_mode (first_line (memcpy 15 buf))) eqn:Hv; cbn [negb]; [|reflexivity].
  rewrite c_str_strncpy, Hmb; [reflexivity|].
  rewrite Hmb. apply valid_mode_length in Hv. change (16 - 1)%nat with 15%nat. lia.
Qed.

End LaterModeStore.

Section LaterEngine.
Import Driver.

(** ** The engine of the later revision *)

(** What a store of the later revision does to the engine. *)
Lemma later_store_cases o st :
  is_tick o = false ->
  (exists v, 1 <= v <= 10000 /\ DriverPoll.run_env_op o st = set_sampling_ms v st) \/
  (exists v, -20000 <= v <= 60000 /\ DriverPoll.run_env_op o st = set_threshold_mC v st) \/
  (exists m, valid_mode m = true /\ DriverPoll.run_env_op o st = set_mode m st) \/
  DriverPoll.run_env_op o st = set_stats_last_error (- EINVAL) st.
Proof.
  destruct o as [rnd|buf|buf|buf]; [discriminate| | |]; intros _;
    cbn [DriverPoll.run_env_op].
  - unfold DriverPoll.sampling_ms_store. cbv zeta.
    destruct (kstrtouint buf) as [v|e]; [|auto 10].
    unfold DriverPoll.SIMTEMP_SAMPLING_MS_MIN, DriverPoll.SIMTEMP_SAMPLING_MS_MAX.
    destruct (Z.ltb_spec v 1); destruct (Z.ltb_spec 10000 v); simpl; auto 10.
    left. exists v. split; [lia|reflexivity].
  - unfold DriverPoll.threshold_mC_store. cbv zeta.
    destruct (kstrtoint buf) as [v|e]; [|auto 10].
    unfold DriverPoll.SIMTEMP_THRESHOLD_MC_MIN, DriverPoll.SIMTEMP_THRESHOLD_MC_MAX.
    destruct (Z.ltb_spec v (-20000)); destruct (Z.ltb_spec 60000 v); simpl; auto 10.
    right. left. exists v. split; [lia|reflexivity].
  - destruct (later_mode_store_cases buf st) as [(m & Hv & ->)| ->]; simpl; [|auto 10].
    right. right. left. exists m. auto.
Qed.

Lemma later_same_engine_store o st :
  is_tick o = false -> same_engine st (DriverPoll.run_env_op o st).
Proof.
  intros H.
  destruct (later_store_cases o st H)
    as [(v & _ & ->)|[(v & _ & ->)|[(m & _ & ->)| ->]]];
    unfold same_engine; simpl; auto 10.
Qed.

Lemma later_inv_run_env_op o st :
  later_inv st -> later_inv (DriverPoll.run_env_op o st).
Proof.
  intros (Hw & Hs & Ht).
  destruct (is_tick o) eqn:Ho.
  - destruct o as [rnd| | |]; try discriminate. cbn [DriverPoll.run_env_op].
    destruct (tick_frame rnd st) as (Es & Et & _).
    split; [now apply well_formed_tick|]. rewrite Es, Et. auto.
  - destruct Hw as (Hs1 & Ht1 & Hm & Hu & Ha & He & Hc & Hq & Hd & Hhi & Hlo & Hl).
    destruct (later_store_cases o st Ho)
      as [(v & Hv & ->)|[(v & Hv & ->)|[(m & Hv & ->)| ->]]];
      unfold later_inv; simpl; (split; [wf_solve|split; lia]).
Qed.

Lemma later_inv_set_last_error e st :
  last_error_value e -> later_inv st -> later_inv (set_stats_last_error e st).
Proof.
  intros He (Hw & Hs & Ht). split; [now apply well_formed_set_last_error|]. auto.
Qed.

Lemma later_inv_set_stats_alerts st :
  later_inv st -> later_inv (set_stats_alerts (u32 (stats_alerts st + 1)) st).
Proof.
  intros ((Hs1 & Ht1 & Hm & Hu & Ha & He & Hc & Hq & Hd & Hhi & Hlo & Hl) & Hs & Ht).
  pose proof (u32_range (stats_alerts st + 1)) as Hr.
  split; [wf_solve | auto].
Qed.

(** An invariant of the environment's operations holds wherever a wait of
    the later revision ends. *)
Lemma later_wait_invariant (P : state -> Prop) :
  (forall o st, P st -> P (DriverPoll.run_env_op o st)) ->
  forall prev evs st,
    P st -> P (outcome_state (DriverPoll.wait_event_interruptible prev evs st)).
Proof.
  intros Hop prev evs.
  induction evs as [|ev evs IH]; intros st H; simpl.
  - destruct (negb _); exact H.
  - destruct (negb _); [exact H|].
    destruct ev as [o|]; [|exact H]. apply IH, Hop, H.
Qed.

Lemma later_run_env_ops_invariant (P : state -> Prop) :
  (forall o st, P st -> P (DriverPoll.run_env_op o st)) ->
  forall os st, P st -> P (DriverPoll.run_env_ops os st).
Proof.
  intros Hop os. unfold DriverPoll.run_env_ops.
  induction os as [|o os IH]; intros st H; simpl; [exact H|]. apply IH, Hop, H.
Qed.

Lemma later_get_file_state_engine alloc_ok file sys :
  DriverPoll.engine (snd (DriverPoll.simtemp_get_file_state alloc_ok file sys))
  = DriverPoll.engine sys.
Proof.
  unfold DriverPoll.simtemp_get_file_state.
  destruct (DriverPoll.private_data sys !! file); [reflexivity|].
  destruct alloc_ok; reflexivity.
Qed.

Lemma later_update_file_state_engine alloc_ok file seq alert sys :
  DriverPoll.engine (DriverPoll.simtemp_update_file_state alloc_ok file seq alert sys)
  = DriverPoll.engine sys.
Proof.
  unfold DriverPoll.simtemp_update_file_state.
  pose proof (later_get_file_state_engine alloc_ok file sys) as H.
  destruct (DriverPoll.simtemp_get_file_state alloc_ok file sys) as [[fs|] sys1];
    simpl in *; auto.
Qed.

(** The engine a read of the later revision leaves, in terms of the
    engine it was called on. *)
Lemma later_read_engine alloc_ok file count env sys :
  let st := DriverPoll.engine sys in
  let st' := DriverPoll.engine
               (DriverPoll.state_after
                  (DriverPoll.simtemp_read alloc_ok file count env sys)) in
  let w := DriverPoll.wait_event_interruptible
             (simtemp_sample_seq st) (wait_events env) st in
  match DriverPoll.return_value (DriverPoll.simtemp_read alloc_ok file count env sys) with
  | None => exists stw, w = Asleep stw /\ st' = stw
  | Some ret =>
      (ret = - ENOMEM /\ st' = st) \/
      (exists stw, w = Interrupted stw /\ ret = - ERESTARTSYS /\
                   st' = set_stats_last_error (- ERESTARTSYS) stw) \/
      (exists stw,
         w = Woken stw /\
         let stm := DriverPoll.run_env_ops (late_ops env) stw in
         let stc := if negb (DriverPoll.polarity stm =? DriverPoll.polarity st)
                    then set_stats_alerts (u32 (stats_alerts stm + 1)) stm
                    else stm in
         (ret = - EINVAL /\ st' = set_stats_last_error (- EINVAL) stc \/
          ret = - EFAULT /\ st' = set_stats_last_error (- EFAULT) stc \/
          ret = 16 /\ st' = stc))
  end.
Proof.
  cbv zeta. unfold DriverPoll.simtemp_read.
  pose proof (later_get_file_state_engine alloc_ok file sys) as He.
  destruct (DriverPoll.simtemp_get_file_state alloc_ok file sys) as [[fs|] sys1];
    simpl in He; [|simpl; left; auto].
  cbv zeta. rewrite He.
  destruct (DriverPoll.wait_event_interruptible _ _ _) as [stw|stw|stw].
  - destruct (count <? sizeof_sample)%nat.
    { simpl. right. right. exists stw. split; [reflexivity|]. left. auto. }
    destruct (negb (not_copied env =? 0)%nat).
    { simpl. right. right. exists stw. split; [reflexivity|]. right. left. auto. }
    cbn [DriverPoll.return_value DriverPoll.state_after].
    rewrite later_update_file_state_engine.
    right. right. exists stw. split; [reflexivity|]. right. right. auto.
  - simpl. right. left. exists stw. auto.
  - simpl. exists stw. auto.
Qed.

Lemma later_inv_read alloc_ok file count env sys :
  later_inv (DriverPoll.engine sys) ->
  later_inv (DriverPoll.engine
               (DriverPoll.state_after
                  (DriverPoll.simtemp_read alloc_ok file count env sys))).
Proof.
  intros H.
  pose proof (later_read_engine alloc_ok file count env sys) as Hr. cbv zeta in Hr.
  pose proof (later_wait_invariant later_inv later_inv_run_env_op
                (simtemp_sample_seq (DriverPoll.engine sys)) (wait_events env)
                (DriverPoll.engine sys) H) as Hw.
  destruct (DriverPoll.return_value _) as [ret|].
  - destruct Hr as [(_ & ->)|[(stw & E & _ & ->)|(stw & E & Hc)]]; [exact H| |].
    + rewrite E in Hw. apply later_inv_set_last_error; [|exact Hw].
      right; right; right; reflexivity.
    + rewrite E in Hw. simpl in Hw.
      pose proof (later_run_env_ops_invariant later_inv later_inv_run_env_op
                    (late_ops env) stw Hw) as Hm.
      set (stm := DriverPoll.run_env_ops (late_ops env) stw) in *.
      assert (Hstc : later_inv
                (if negb (DriverPoll.polarity stm =? DriverPoll.polarity (DriverPoll.engine sys))
                 then set_stats_alerts (u32 (stats_alerts stm + 1)) stm else stm)).
      { destruct (negb _); [now apply later_inv_set_stats_alerts | exact Hm]. }
      destruct Hc as [(_ & ->)|[(_ & ->)|(_ & ->)]]; [| |exact Hstc].
      * apply later_inv_set_last_error; [right; left; reflexivity | exact Hstc].
      * apply later_inv_set_last_error; [right; right; left; reflexivity | exact Hstc].
  - destruct Hr as (stw & E & ->). rewrite E in Hw. exact Hw.
Qed.

Lemma later_poll_engine alloc_ok file sys :
  DriverPoll.engine (snd (DriverPoll.simtemp_poll alloc_ok file sys))
  = DriverPoll.engine sys.
Proof.
  unfold DriverPoll.simtemp_poll.
  pose proof (later_get_file_state_engine alloc_ok file sys) as H.
  destruct (DriverPoll.simtemp_get_file_state alloc_ok file sys) as [[fs|] sys1];
    simpl in *; auto.
Qed.

Lemma later_inv_init : later_inv (DriverPoll.engine DriverPoll.init).
Proof. split; [apply well_formed_init|]. simpl. lia. Qed.

Lemma later_inv_run ops :
  later_inv (DriverPoll.engine (DriverPoll.run ops DriverPoll.init)).
Proof.
  assert (H : forall sys, later_inv (DriverPoll.engine sys) ->
                          later_inv (DriverPoll.engine (DriverPoll.run ops sys))).
  { unfold DriverPoll.run.
    induction ops as [|o ops IH]; intros sys Hs; simpl; [exact Hs|].
    apply IH. destruct o as [e|a file count env|a file|file]; simpl.
    - now apply later_inv_run_env_op.
    - now apply later_inv_read.
    - now rewrite later_poll_engine.
    - exact Hs. }
  apply H, later_inv_init.
Qed.

(** X11: after any run of the later revision (ticks, stores of any bytes,
    reads, polls and closes on any files) the period is within
    [1, 10000] ms, the threshold within [-20000, 60000] and the reading
    within [43950, 46050]. *)
Theorem later_configuration_in_range (ops : list DriverPoll.op) :
  let st := DriverPoll.engine (DriverPoll.run ops DriverPoll.init) in
  1 <= sampling_ms st <= 10000 /\
  -20000 <= threshold_mC st <= 60000 /\
  43950 <= simtemp_current_mC st <= 46050.
Proof.
  intros st.
  destruct (later_inv_run ops)
    as ((Hs1 & _ & _ & _ & _ & _ & Hc & _) & Hs & Ht).
  fold st in Hs1, Hc, Hs, Ht.
  repeat split; lia.
Qed.

End LaterEngine.

Section LaterFiles.
Import Driver.

(** ** Reads and polls of the later revision *)

Lemma later_get_file_state_some alloc_ok file sys fs sys1 :
  DriverPoll.simtemp_get_file_state alloc_ok file sys = (Some fs, sys1) ->
  DriverPoll.private_data sys1 !! file = Some fs /\
  DriverPoll.engine sys1 = DriverPoll.engine sys.
Proof.
  unfold DriverPoll.simtemp_get_file_state.
  destruct (DriverPoll.private_data sys !! file) as [fs0|] eqn:E.
  - intros [= <- <-]. auto.
  - destruct alloc_ok; [|discriminate].
    intros [= <- <-]. simpl. split; [apply lookup_insert_eq|reflexivity].
Qed.

Lemma later_wait_unfold prev evs st :
  DriverPoll.wait_event_interruptible prev evs st
  = if negb (simtemp_sample_seq st =? prev) then Woken st
    else match evs with
         | [] => Asleep st
         | Signal :: _ => Interrupted st
         | Happens o :: evs' =>
             DriverPoll.wait_event_interruptible prev evs' (DriverPoll.run_env_op o st)
         end.
Proof. destruct evs; reflexivity. Qed.

(** A caller of the later revision wakes in the state the first tick
    left. *)
Lemma later_wait_woken prev evs st stw :
  simtemp_sample_seq st = prev ->
  DriverPoll.wait_event_interruptible prev evs st = Woken stw ->
  simtemp_sample_seq stw = u32 (prev + 1).
Proof.
  revert st. induction evs as [|ev evs IH]; intros st Hst;
    rewrite later_wait_unfold, Hst, Z.eqb_refl; cbn [negb]; [discriminate|].
  destruct ev as [o|]; [|discriminate].
  destruct (is_tick o) eqn:Ho.
  - destruct o as [rnd| | |]; try discriminate. cbn [DriverPoll.run_env_op].
    rewrite later_wait_unfold.
    destruct (tick_counters rnd st) as [_ Hq]. rewrite Hst in Hq.
    destruct (Z.eqb_spec (simtemp_sample_seq (simtemp_update_temp rnd st)) prev)
      as [E|_]; cbn [negb].
    + exfalso. rewrite Hq in E. exact (bump_changes _ E).
    + intros [= <-]. exact Hq.
  - apply IH.
    destruct (later_same_engine_store o st Ho) as (_ & _ & _ & -> & _). exact Hst.
Qed.

Lemma later_same_engine_stores os st :
  forallb (fun o => negb (is_tick o)) os = true ->
  same_engine st (DriverPoll.run_env_ops os st).
Proof.
  unfold DriverPoll.run_env_ops. revert st.
  induction os as [|o os IH]; intros st H; simpl in *; [apply same_engine_refl|].
  apply andb_prop in H as [Ho Hos]. apply negb_true_iff in Ho.
  eapply same_engine_trans; [apply later_same_engine_store, Ho | apply IH, Hos].
Qed.


Lemma polarity_set_stats_alerts n st :
  DriverPoll.polarity (set_stats_alerts n st) = DriverPoll.polarity st.
Proof. reflexivity. Qed.


(** The file state a successful read leaves. *)
Lemma later_read_success alloc_ok file count env sys sys' user :
  DriverPoll.simtemp_read alloc_ok file count env sys = DriverPoll.Returned sys' 16 user ->
  DriverPoll.private_data sys' !! file
  = Some (DriverPoll.mkFile (u32 (simtemp_sample_seq (DriverPoll.engine sys) + 1))
            (DriverPoll.polarity (DriverPoll.engine sys'))) /\
  exists stw,
    DriverPoll.wait_event_interruptible
      (simtemp_sample_seq (DriverPoll.engine sys)) (wait_events env)
      (DriverPoll.engine sys) = Woken stw /\
    simtemp_sample_seq (DriverPoll.engine sys')
    = simtemp_sample_seq (DriverPoll.run_env_ops (late_ops env) stw).
Proof.
  unfold DriverPoll.simtemp_read.
  destruct (DriverPoll.simtemp_get_file_state alloc_ok file sys) as [[fs|] sys1] eqn:Hg;
    [|intros [= _ H _]; vm_compute in H; discriminate].
  destruct (later_get_file_state_some _ _ _ _ _ Hg) as [Hl He].
  cbv zeta. rewrite He.
  destruct (DriverPoll.wait_event_interruptible _ _ _) as [stw|stw|stw];
    [| intros [= _ H _]; vm_compute in H; discriminate | discriminate].
  destruct (count <? sizeof_sample)%nat;
    [intros [= _ H _]; vm_compute in H; discriminate|].
  destruct (negb (not_copied env =? 0)%nat);
    [intros [= _ H _]; vm_compute in H; discriminate|].
  intros [= <- _].
  unfold DriverPoll.simtemp_update_file_state, DriverPoll.simtemp_get_file_state.
  cbn [DriverPoll.private_data DriverPoll.engine]. rewrite Hl.
  cbn [DriverPoll.private_data DriverPoll.engine]. rewrite lookup_insert_eq.
  split.
  - do 2 f_equal. now destruct (negb _).
  - exists stw. split; [reflexivity|]. now destruct (negb _).
Qed.

(** X12: a poll that follows a successful read on the same file never reports
    [POLLPRI]; it reports [POLLIN | POLLRDNORM] exactly when the sequence
    number is not the one at the call of the read plus one, and nothing at
    all when no tick ran between the wake-up of the read and its taking
    the lock. *)
Theorem later_read_then_poll
    (alloc_ok alloc_ok' : bool) (file count : nat) (env : read_env)
    (sys sys' : DriverPoll.system) (user : list Z) :
  DriverPoll.simtemp_read alloc_ok file count env sys
    = DriverPoll.Returned sys' 16 user ->
  DriverPoll.simtemp_poll alloc_ok' file sys'
  = (if simtemp_sample_seq (DriverPoll.engine sys')
          =? u32 (simtemp_sample_seq (DriverPoll.engine sys) + 1)
     then 0 else Z.lor DriverPoll.POLLIN DriverPoll.POLLRDNORM, sys') /\
  (forallb (fun o => negb (is_tick o)) (late_ops env) = true ->
   DriverPoll.simtemp_poll alloc_ok' file sys' = (0, sys')).
Proof.
  intros H. destruct (later_read_success _ _ _ _ _ _ _ H) as (Hf & stw & Hw & Hq).
  assert (Hp : DriverPoll.simtemp_poll alloc_ok' file sys'
     = (if simtemp_sample_seq (DriverPoll.engine sys')
             =? u32 (simtemp_sample_seq (DriverPoll.engine sys) + 1)
        then 0 else Z.lor DriverPoll.POLLIN DriverPoll.POLLRDNORM, sys')).
  { unfold DriverPoll.simtemp_poll.
    rewrite (later_get_file_state_existing _ _ _ _ Hf). cbv zeta.
    cbn [DriverPoll.last_seq DriverPoll.last_alert_state].
    rewrite Z.eqb_refl. cbn [negb].
    now destruct (_ =? _). }
  split; [exact Hp|].
  intros Hl. rewrite Hp, Hq.
  destruct (later_same_engine_stores _ stw Hl) as (_ & _ & _ & -> & _).
  rewrite (later_wait_woken _ _ _ _ eq_refl Hw), Z.eqb_refl. reflexivity.
Qed.

Lemma later_read_then_poll_witness :
  let env := mkEnv [Happens (Tick 0)] [Tick 0] 0 0 in
  let r := DriverPoll.simtemp_read true 0 16 env DriverPoll.init in
  DriverPoll.return_value r = Some 16 /\
  record_temp (DriverPoll.user_buffer r) = 44020 /\
  fst (DriverPoll.simtemp_poll true 0 (DriverPoll.state_after r)) = 65.
Proof.
  intros env r.
  destruct (later_read_then_poll true true 0 16 env DriverPoll.init
              (DriverPoll.state_after r) (DriverPoll.user_buffer r) eq_refl)
    as [Hp _].
  rewrite Hp. repeat split.
Defined.



(** X14: the read of the later revision looks at whether the file has a state,
    never at what the state holds: the value returned, the bytes delivered
    and the engine left are the same whatever [last_seq] and
    [last_alert_state] the file had, and so is the whole system after a
    successful read. *)
Theorem later_read_ignores_file_state
    (alloc_ok : bool) (file count : nat) (env : read_env) (st : state)
    (files : gmap nat DriverPoll.simtemp_file_state)
    (fs fs' : DriverPoll.simtemp_file_state) :
  let r := DriverPoll.simtemp_read alloc_ok file count env
             (DriverPoll.mkSystem st (<[file := fs]> files)) in
  let r' := DriverPoll.simtemp_read alloc_ok file count env
              (DriverPoll.mkSystem st (<[file := fs']> files)) in
  DriverPoll.return_value r = DriverPoll.return_value r' /\
  DriverPoll.user_buffer r = DriverPoll.user_buffer r' /\
  DriverPoll.engine (DriverPoll.state_after r)
    = DriverPoll.engine (DriverPoll.state_after r') /\
  (DriverPoll.return_value r = Some 16 ->
   DriverPoll.state_after r = DriverPoll.state_after r').
Proof.
  cbv zeta. unfold DriverPoll.simtemp_read.
  rewrite !(later_get_file_state_existing alloc_ok file _ _ (lookup_insert_eq _ _ _)).
  cbv zeta. cbn [DriverPoll.engine DriverPoll.private_data].
  destruct (DriverPoll.wait_event_interruptible _ _ _) as [stw|stw|stw];
    [|simpl; repeat split; discriminate|simpl; repeat split; discriminate].
  destruct (count <? sizeof_sample)%nat; [simpl; repeat split; discriminate|].
  destruct (negb (not_copied env =? 0)%nat); [simpl; repeat split; intros [= E]; vm_compute in E; discriminate|].
  cbn [DriverPoll.return_value DriverPoll.user_buffer DriverPoll.state_after].
  rewrite !later_update_file_state_engine.
  unfold DriverPoll.simtemp_update_file_state.
  rewrite !(later_get_file_state_existing alloc_ok file _ _ (lookup_insert_eq _ _ _)).
  cbn [DriverPoll.engine DriverPoll.private_data].
  rewrite !insert_insert_eq. auto.
Qed.

Lemma later_read_ignores_file_state_witness :
  let stale := DriverPoll.mkFile 41 1 in
  let fresh := DriverPoll.mkFile 0 0 in
  DriverPoll.state_after
    (DriverPoll.simtemp_read true 3 16 one_tick
       (DriverPoll.mkSystem init (<[3%nat := stale]> ∅)))
  = DriverPoll.state_after
      (DriverPoll.simtemp_read true 3 16 one_tick
         (DriverPoll.mkSystem init (<[3%nat := fresh]> ∅))).
Proof.
  intros stale fresh.
  destruct (later_read_ignores_file_state true 3 16 one_tick init ∅ stale fresh)
    as (_ & _ & _ & H).
  apply H. reflexivity.
Defined.

Lemma later_poll_existing alloc_ok file fs sys :
  DriverPoll.private_data sys !! file = Some fs ->
  DriverPoll.simtemp_poll alloc_ok file sys
  = (Z.lor (if negb (simtemp_sample_seq (DriverPoll.engine sys) =? DriverPoll.last_seq fs)
            then Z.lor DriverPoll.POLLIN DriverPoll.POLLRDNORM else 0)
           (if negb (DriverPoll.polarity (DriverPoll.engine sys)
                       =? DriverPoll.last_alert_state fs)
            then DriverPoll.POLLPRI else 0), sys).
Proof.
  intros H. unfold DriverPoll.simtemp_poll.
  rewrite (later_get_file_state_existing _ _ _ _ H). cbv zeta.
  destruct (negb (_ =? DriverPoll.last_seq fs));
    destruct (negb (_ =? DriverPoll.last_alert_state fs)); reflexivity.
Qed.

Lemma later_poll_fresh file sys :
  DriverPoll.private_data sys !! file = None ->
  DriverPoll.simtemp_poll true file sys
  = (0, DriverPoll.mkSystem (DriverPoll.engine sys)
          (<[file := DriverPoll.mkFile (simtemp_sample_seq (DriverPoll.engine sys))
                       (DriverPoll.polarity (DriverPoll.engine sys))]>
             (DriverPoll.private_data sys))).
Proof.
  intros H. unfold DriverPoll.simtemp_poll, DriverPoll.simtemp_get_file_state.
  rewrite H. cbv zeta.
  cbn [DriverPoll.engine DriverPoll.last_seq DriverPoll.last_alert_state].
  now rewrite !Z.eqb_refl.
Qed.

(** X15: polling reports a level, not an event: a second poll on the same file
    returns the mask of the first and changes nothing, and no poll changes
    the engine.  The first poll on a file without a state takes the
    sequence number and polarity of that moment as the file's own and
    reports nothing, whatever was produced before it. *)
Theorem later_poll_level_triggered
    (alloc_ok : bool) (file : nat) (sys : DriverPoll.system) :
  let p := DriverPoll.simtemp_poll true file sys in
  DriverPoll.simtemp_poll alloc_ok file (snd p) = p /\
  DriverPoll.engine (snd p) = DriverPoll.engine sys /\
  (DriverPoll.private_data sys !! file = None ->
   fst p = 0 /\
   DriverPoll.private_data (snd p) !! file
   = Some (DriverPoll.mkFile (simtemp_sample_seq (DriverPoll.engine sys))
             (DriverPoll.polarity (DriverPoll.engine sys)))).
Proof.
  cbv zeta. split; [|split; [apply later_poll_engine|]].
  - destruct (DriverPoll.private_data sys !! file) as [fs|] eqn:E.
    + rewrite (later_poll_existing true file fs sys E). cbn [snd].
      apply later_poll_existing, E.
    + rewrite (later_poll_fresh file sys E). cbn [snd].
      erewrite later_poll_existing by (cbn [DriverPoll.private_data]; apply lookup_insert_eq).
      cbn [DriverPoll.engine DriverPoll.last_seq DriverPoll.last_alert_state].
      now rewrite !Z.eqb_refl.
  - intros Hn. rewrite (later_poll_fresh file sys Hn). cbn [fst snd DriverPoll.private_data].
    split; [reflexivity|apply lookup_insert_eq].
Qed.

Lemma later_poll_level_triggered_witness :
  let sys := DriverPoll.run
               [DriverPoll.Env (Tick 0); DriverPoll.Env (Tick 0)] DriverPoll.init in
  simtemp_sample_seq (DriverPoll.engine sys) = 2 /\
  fst (DriverPoll.simtemp_poll true 5 sys) = 0.
Proof.
  intros sys.
  destruct (later_poll_level_triggered true 5 sys) as (_ & _ & H).
  split; [reflexivity|]. apply H. reflexivity.
Defined.

End LaterFiles.

Section AlertAccounting.
Import Driver.

(** ** Where alerts are counted *)

Lemma alerts_env_op o st :
  stats_alerts (run_env_op o st) = stats_alerts st /\
  last_alert_state (run_env_op o st) = last_alert_state st.
Proof.
  destruct (is_tick o) eqn:Ho.
  - destruct o as [rnd| | |]; try discriminate. cbn [run_env_op].
    destruct (tick_frame rnd st) as (_ & _ & _ & -> & _ & ->). auto.
  - destruct (same_engine_store o st Ho) as (_ & -> & _ & _ & _ & ->). auto.
Qed.




Lemma read_alerts_step file count env st :
  stats_alerts (state_after (simtemp_read file count env st)) = stats_alerts st \/
  stats_alerts (state_after (simtemp_read file count env st)) = bump (stats_alerts st).
Proof.
  unfold simtemp_read. cbv zeta.
  set (P := fun s => stats_alerts s = stats_alerts st).
  assert (Hop : forall o s, P s -> P (run_env_op o s)).
  { intros o s H. unfold P. destruct (alerts_env_op o s) as [E _]. now rewrite E. }
  pose proof (wait_invariant P Hop (simtemp_sample_seq st) (wait_events env) st eq_refl)
    as Hw.
  destruct (wait_event_interruptible _ _ _) as [stw|stw|stw]; simpl in Hw;
    [|left; exact Hw|left; exact Hw].
  pose proof (run_env_ops_invariant P Hop (late_ops env) stw Hw) as Hl. unfold P in Hl.
  pose proof (read_locked_cases (ktime_ns env) (run_env_ops (late_ops env) stw)) as Hc.
  cbv zeta in Hc.
  destruct (read_locked _ _) as [sample stl]. cbn [snd] in Hc.
  assert (Hs : stats_alerts stl = stats_alerts st \/
               stats_alerts stl = bump (stats_alerts st)).
  { rewrite Hc. destruct (negb _); simpl; rewrite ?Hl; auto. }
  clear Hc.
  destruct (count <? sizeof_sample)%nat; [exact Hs|].
  destruct (negb (not_copied env =? 0)%nat); exact Hs.
Qed.

(** X17: alerts are counted by reads only: over any run, [stats_alerts] has
    advanced by at most one for each call to [simtemp_read] in it, so
    with nobody reading it stays where it was however often the reading
    crosses the threshold. *)
Theorem alerts_counted_by_reads (ops : list op) (st : state) :
  exists n : nat,
    (n <= reads ops)%nat /\
    stats_alerts (run ops st) = Nat.iter n bump (stats_alerts st).
Proof.
  revert st. induction ops as [|o ops IH]; intros st.
  - exists 0%nat. split; [lia|reflexivity].
  - change (run (o :: ops) st) with (run ops (run_op o st)).
    destruct (IH (run_op o st)) as (n & Hn & ->).
    destruct o as [e|file count env]; cbn [run_op].
    + exists n. cbn [reads]. split; [exact Hn|]. now destruct (alerts_env_op e st) as [-> _].
    + cbn [reads].
      destruct (read_alerts_step file count env st) as [-> | ->].
      * exists n. split; [lia|reflexivity].
      * exists (S n). split; [simpl; lia|]. now rewrite Nat.iter_succ_r.
Qed.

End AlertAccounting.

Section ShowLengths.
Import Driver.

(** ** The size of what the show functions write *)

Lemma put_dec_length fuel n acc (k : nat) :
  (1 <= k)%nat -> 0 <= n < 10 ^ Z.of_nat k ->
  (String.length (put_dec fuel n acc) <= k + String.length acc)%nat.
Proof.
  revert n acc k. induction fuel as [|fuel IH]; intros n acc k Hk Hn.
  - simpl. lia.
  - cbn [put_dec]. destruct (Z.eqb_spec (n / 10) 0) as [E|E].
    + simpl. lia.
    + destruct k as [|[|k]]; [lia| |].
      * exfalso. apply E. apply Z.div_small. change (10 ^ Z.of_nat 1) with 10 in Hn. lia.
      * assert (Hd : 0 <= n / 10 < 10 ^ Z.of_nat (S k)).
        { rewrite (Nat2Z.inj_succ (S k)), Z.pow_succ_r in Hn by lia.
          split; [apply Z.div_pos; lia|].
          apply Z.div_lt_upper_bound; lia. }
        specialize (IH (n / 10) (String (digit_char (n mod 10)) acc) (S k)
                      ltac:(lia) Hd).
        simpl in IH |- *. lia.
Qed.

Lemma fmt_u_length n : 0 <= n < 2 ^ 32 -> (String.length (fmt_u n) <= 10)%nat.
Proof.
  intros H. unfold fmt_u.
  pose proof (put_dec_length 20 n EmptyString 10 ltac:(lia)) as Hl.
  simpl String.length in Hl. rewrite Nat.add_0_r in Hl. apply Hl.
  change (10 ^ Z.of_nat 10) with 10000000000. lia.
Qed.

Lemma fmt_d_length v : - 2 ^ 31 <= v < 2 ^ 31 -> (String.length (fmt_d v) <= 11)%nat.
Proof.
  intros H. unfold fmt_d. destruct (Z.ltb_spec v 0).
  - cbn [String.length]. pose proof (fmt_u_length (- v) ltac:(lia)). lia.
  - pose proof (fmt_u_length v ltac:(lia)). lia.
Qed.

(** X18: the show functions write with [sprintf], which has no bound of its
    own.  In every state the driver can reach the texts are short: at most
    11 bytes for [sampling_ms], 12 for [threshold_mC], 7 for [mode] and 53
    for [stats], far below the page sysfs hands them. *)
Theorem show_texts_fit (ops : list op) :
  let st := run ops init in
  (String.length (sampling_ms_show st) <= 11)%nat /\
  (String.length (threshold_mC_show st) <= 12)%nat /\
  (String.length (mode_show st) <= 7)%nat /\
  (String.length (stats_show st) <= 53)%nat.
Proof.
  intros st.
  destruct (well_formed_run ops)
    as (Hs & Ht & Hm & Hu & Ha & He & _). fold st in Hs, Ht, Hm, Hu, Ha, He.
  unfold uint_range, int_range in *.
  pose proof (fmt_u_length (sampling_ms st) ltac:(lia)) as L1.
  pose proof (fmt_d_length (threshold_mC st) Ht) as L2.
  pose proof (fmt_u_length (stats_updates st) Hu) as L3.
  pose proof (fmt_u_length (stats_alerts st) Ha) as L4.
  assert (L5 : (String.length (fmt_d (stats_last_error st)) <= 4)%nat).
  { destruct He as [-> | [-> | [-> | ->]]]; vm_compute; lia. }
  assert (L6 : (String.length (c_str (mode st)) <= 6)%nat).
  { destruct (valid_mode_cases _ Hm) as [-> | [-> | ->]]; vm_compute; lia. }
  unfold sampling_ms_show, threshold_mC_show, mode_show, stats_show.
  repeat (rewrite append_length || cbn [String.length]).
  lia.
Qed.

End ShowLengths.

Section ProbeRemove.
Import Platform.

(** ** Probe and remove *)

Lemma create_file_cases env a k :
  create_file env a k = set_sysfs_files (a :: sysfs_files k) k \/
  create_file env a k = k.
Proof. unfold create_file. destruct (_ =? 0); auto. Qed.

Ltac probe_tests a ca :=
  unfold nxp_simtemp_probe, probe_calls_succeed, first_error;
  cbn [alloc_chrdev_region class_create device_create cdev_add];
  cbv zeta;
  destruct (a <? 0); destruct (ca <? 0).

Ltac created_files f :=
  match goal with
  | |- context [create_file ?env "stats" ?k3] =>
      destruct (create_file_cases env "stats" k3) as [-> | ->]
  end;
  match goal with
  | |- context [create_file ?env "mode" ?k2] =>
      destruct (create_file_cases env "mode" k2) as [-> | ->]
  end;
  match goal with
  | |- context [create_file ?env "threshold_mC" ?k1] =>
      destruct (create_file_cases env "threshold_mC" k1) as [-> | ->]
  end;
  match goal with
  | |- context [create_file ?env "sampling_ms" ?k0] =>
      destruct (create_file_cases env "sampling_ms" k0) as [-> | ->]
  end.

(** X19: the probe registers all of the device or nothing of it: when one of
    the four calls it gives up on fails, it returns that call's error with
    the device number, the class, the device and the character device all
    released; when they succeed it returns 0 even if attribute files could
    not be created.  Either way the timer, armed before the first of these
    calls, is left armed. *)
Theorem probe_all_or_nothing (env : probe_env) :
  let r := nxp_simtemp_probe env unloaded in
  timer_pending (fst r) = true /\
  if probe_calls_succeed env
  then snd r = 0 /\
       chrdev_region (fst r) = true /\ class_exists (fst r) = true /\
       device_exists (fst r) = true /\ cdev_added (fst r) = true
  else snd r = first_error env /\ nothing_registered (fst r).
Proof.
  destruct env as [a c d ca f].
  destruct c as [|e]; destruct d as [|e']; probe_tests a ca;
    try (vm_compute; repeat split; reflexivity);
    created_files f; vm_compute; repeat split; reflexivity.
Qed.

(** X20: a remove after a successful probe releases everything the probe
    registered, the attribute files and the timer included. *)
Theorem probe_then_remove (env : probe_env) :
  probe_calls_succeed env = true ->
  let k := nxp_simtemp_remove (fst (nxp_simtemp_probe env unloaded)) in
  timer_pending k = false /\ nothing_registered k.
Proof.
  destruct env as [a c d ca f].
  destruct c as [|e]; destruct d as [|e']; probe_tests a ca;
    try discriminate; intros _;
    created_files f; vm_compute; repeat split; reflexivity.
Qed.

Lemma probe_then_remove_witness :
  let env := mkProbeEnv 0 Object Object 0
               (fun a => if String.eqb a "mode" then -12 else 0) in
  sysfs_files (fst (nxp_simtemp_probe env unloaded))
    = ["stats"; "threshold_mC"; "sampling_ms"] /\
  sysfs_files (nxp_simtemp_remove (fst (nxp_simtemp_probe env unloaded))) = [] /\
  timer_pending (nxp_simtemp_remove (fst (nxp_simtemp_probe env unloaded))) = false.
Proof.
  intros env.
  destruct (probe_then_remove env eq_refl) as (Ht & _ & _ & _ & _ & Hf).
  split; [reflexivity|]. split; [exact Hf | exact Ht].
Defined.

End ProbeRemove.

Section ModeRace.
Import Driver.

(** ** The copy into [mode] and the tick *)











End ModeRace.
